(** * Cursorless target pipeline: the Position stage and the Token stage

  A shallow embedding of
    - src/processTargets/modifiers/PositionStage.ts
    - src/processTargets/pipelineStages/TokenStage.ts
    - the [TypedSelection] and [ProcessedTargetsContext] interfaces of
      src/typings/Types.ts
  together with the small part of the editor API (positions, ranges, text
  lines, [lineAt]) and of JavaScript (strings as sequences of UTF-16 code
  units, [slice], the two regular expressions of the Token stage) that the
  two stages call, and of the sidecar functions [sidecarSetup] and
  [sidecarPrefix]. *)

From Stdlib Require Import String Ascii NArith ZArith Lia Bool List.
Import ListNotations.

Set Implicit Arguments.

(** ** JavaScript strings *)

Module Js.

(** A JavaScript string is a sequence of 16-bit code units; [length],
    [slice] and the (non-unicode) regular expressions all count code
    units. *)
Definition CodeUnit := N.
Definition JsString := list CodeUnit.

(** An ASCII literal of the source as a JavaScript string. *)
Definition lit (s : string) : JsString :=
  map N_of_ascii (list_ascii_of_string s).

Definition eqb (a b : JsString) : bool :=
  if list_eq_dec N.eq_dec a b then true else false.

(** [s.slice(beginIndex, endIndex)] for non-negative integer indices; an
    omitted [endIndex] is the length of the string. Indices past the end
    are clamped to the length, and an empty span gives the empty string. *)
Definition slice (s : JsString) (beginIndex : nat) (endIndex : option nat)
  : JsString :=
  let len := length s in
  let from := Nat.min beginIndex len in
  let to :=
    match endIndex with
    | Some e => Nat.min e len
    | None => len
    end in
  firstn (to - from) (skipn from s).

(** [x != null] on an optional value. *)
Definition notNull {A : Type} (x : option A) : bool :=
  match x with
  | Some _ => true
  | None => false
  end.

(** The character class [\s]: the WhiteSpace and LineTerminator code
    points of ECMAScript. *)
Definition isWhiteSpace (c : CodeUnit) : bool :=
  ((c =? 9) || (c =? 10) || (c =? 11) || (c =? 12) || (c =? 13)
   || (c =? 32) || (c =? 160) || (c =? 5760)
   || ((8192 <=? c) && (c <=? 8202))
   || (c =? 8232) || (c =? 8233) || (c =? 8239) || (c =? 8287)
   || (c =? 12288) || (c =? 65279))%N.

(** The fragment of regular expressions the Token stage uses: a sequence
    of atoms, each a greedy [cls+] or one of the assertions [^] and [$]
    (no flags: [^] holds only at index 0, [$] only at the end of the
    input). *)
Inductive Atom : Type :=
| ClassPlus (cls : CodeUnit -> bool)
| AssertStart
| AssertEnd.

Definition Pattern := list Atom.

(** Backtracking match of [p] against the input from the current index on.
    [atStart] says whether the current index is 0, [rest] is the input from
    the current index. The result is the number of code units consumed.
    [cls+] is greedy: it first tries to take one more code unit, and gives
    one back only when the rest of the pattern fails after it. *)
Fixpoint matchHere (p : Pattern) (atStart : bool) (rest : JsString)
  {struct p} : option nat :=
  match p with
  | [] => Some 0
  | AssertStart :: p' => if atStart then matchHere p' atStart rest else None
  | AssertEnd :: p' =>
      match rest with
      | [] => matchHere p' atStart rest
      | _ :: _ => None
      end
  | ClassPlus cls :: p' =>
      (fix plus (r : JsString) : option nat :=
         match r with
         | [] => None
         | c :: r' =>
             if cls c then
               match plus r' with
               | Some n => Some (S n)
               | None =>
                   match matchHere p' false r' with
                   | Some n => Some (S n)
                   | None => None
                   end
               end
             else None
         end) rest
  end.

(** Leftmost match: the start indices are tried in increasing order,
    the empty suffix included. *)
Fixpoint execFrom (p : Pattern) (index : nat) (rest : JsString)
  : option (nat * JsString) :=
  match matchHere p (Nat.eqb index 0) rest with
  | Some n => Some (index, firstn n rest)
  | None =>
      match rest with
      | [] => None
      | _ :: rest' => execFrom p (S index) rest'
      end
  end.

(** [s.match(re)] for a regular expression without the global flag:
    [None] is [null], [Some (i, m)] is the match array with [index = i]
    and element 0 equal to [m]. *)
Definition match_ (s : JsString) (re : Pattern) : option (nat * JsString) :=
  execFrom re 0 s.

(** [/\s+$/] *)
Definition re_ws_end : Pattern := [ClassPlus isWhiteSpace; AssertEnd].
(** [/^\s+/] *)
Definition re_start_ws : Pattern := [AssertStart; ClassPlus isWhiteSpace].

End Js.

(** ** Exceptions *)

Inductive Exception : Type :=
| IllegalLine       (* lineAt: Illegal value for `line` *)
| IllegalArgument.  (* Position: line / character must be non-negative *)

Inductive Result (A : Type) : Type :=
| Ok (a : A)
| Throw (e : Exception).

Arguments Ok {A} a.
Arguments Throw {A} e.

Definition bind {A B : Type} (m : Result A) (k : A -> Result B) : Result B :=
match m with
| Ok a => k a
| Throw e => Throw e
end.

Declare Scope result_scope.
Delimit Scope result_scope with result.
Notation "x <- m ;; k" := (bind m (fun x => k))
(at level 61, m at next level, right associativity) : result_scope.

(** ** The editor API used by the stages *)

Module Vscode.

(** A position: zero-based line and character (UTF-16 column). *)
Record Position : Type := mkPosition { line : nat; character : nat }.

(** [new Position(line, character)] on numbers: negative arguments are
    refused. *)
Definition new_Position (l c : Z) : Result Position :=
  if (l <? 0)%Z then Throw IllegalArgument
  else if (c <? 0)%Z then Throw IllegalArgument
  else Ok (mkPosition (Z.to_nat l) (Z.to_nat c)).

Definition isBefore (a b : Position) : bool :=
  if line a <? line b then true
  else if line b <? line a then false
  else character a <? character b.

Definition isEqual (a b : Position) : bool :=
  (line a =? line b) && (character a =? character b).

Definition isBeforeOrEqual (a b : Position) : bool :=
  isBefore a b || isEqual a b.

(** A range; [end_] is the source's [end]. *)
Record Range : Type := mkRange { start : Position; end_ : Position }.

(** [new Range(start, end)]: the two positions are stored in order. *)
Definition new_Range (a b : Position) : Range :=
  if isBefore a b then mkRange a b else mkRange b a.

(** [new Range(startLine, startCharacter, endLine, endCharacter)]. *)
Definition new_Range4 (startLine startCharacter endLine endCharacter : Z)
  : Result Range :=
  (a <- new_Position startLine startCharacter ;;
   b <- new_Position endLine endCharacter ;;
   Ok (new_Range a b))%result.

(** [range.contains(position)]. *)
Definition contains (r : Range) (p : Position) : bool :=
  isBeforeOrEqual (start r) p && isBeforeOrEqual p (end_ r).

Definition isEmpty (r : Range) : bool := isEqual (start r) (end_ r).

(** A line of a document: its text has no line break, its range runs from
    column 0 to the length of the text. *)
Record TextLine : Type := mkTextLine {
  lineNumber : nat;
  text : Js.JsString;
  range : Range
}.

Record TextDocument : Type := mkTextDocument { lines : list Js.JsString }.

(** [document.lineAt(position)]: only the line of the position is used;
    a line that is not in the document is refused. *)
Definition lineAt (d : TextDocument) (p : Position) : Result TextLine :=
  match nth_error (lines d) (line p) with
  | Some t =>
      Ok (mkTextLine (line p) t
            (mkRange (mkPosition (line p) 0) (mkPosition (line p) (length t))))
  | None => Throw IllegalLine
  end.

(** The editor is a handle on a document. *)
Record TextEditor : Type := mkTextEditor {
  editorId : nat;
  document : TextDocument
}.

Record Selection : Type := mkSelection { anchor : Position; active : Position }.

Record Location : Type := mkLocation { uri : Js.JsString; locationRange : Range }.

End Vscode.

(** ** src/typings/Types.ts *)

Module Types.
Import Vscode.

(** [TypedSelection]; an optional field is an [option]. *)
Record TypedSelection : Type := mkTypedSelection {
  editor : TextEditor;
  isReversed : option bool;
  isRawSelection : option bool;
  delimiter : option Js.JsString;
  contentRange : Range;
  interiorRange : option Range;
  leadingDelimiterRange : option Range;
  trailingDelimiterRange : option Range;
  boundary : option (list Range)
}.

Record SelectionWithEditor : Type := mkSelectionWithEditor {
  selection : Selection;
  selectionEditor : TextEditor
}.

(** [ProcessedTargetsContext]. The hat map and the syntax nodes are
    declared outside the files modelled here; they are type parameters. *)
Record ProcessedTargetsContext (ReadOnlyHatMap SyntaxNode : Type) : Type :=
  mkProcessedTargetsContext {
    hatTokenMap : ReadOnlyHatMap;
    thatMark : list SelectionWithEditor;
    sourceMark : list SelectionWithEditor;
    getNodeAtLocation : Location -> SyntaxNode
  }.

(** Assignments to single fields of a selection. *)
Definition set_contentRange (s : TypedSelection) (r : Range) : TypedSelection :=
  mkTypedSelection (editor s) (isReversed s) (isRawSelection s) (delimiter s)
    r (interiorRange s) (leadingDelimiterRange s) (trailingDelimiterRange s)
    (boundary s).

Definition set_interiorRange (s : TypedSelection) (r : option Range)
  : TypedSelection :=
  mkTypedSelection (editor s) (isReversed s) (isRawSelection s) (delimiter s)
    (contentRange s) r (leadingDelimiterRange s) (trailingDelimiterRange s)
    (boundary s).

Definition set_delimiter (s : TypedSelection) (d : option Js.JsString)
  : TypedSelection :=
  mkTypedSelection (editor s) (isReversed s) (isRawSelection s) d
    (contentRange s) (interiorRange s) (leadingDelimiterRange s)
    (trailingDelimiterRange s) (boundary s).

Definition set_leadingDelimiterRange (s : TypedSelection) (r : option Range)
  : TypedSelection :=
  mkTypedSelection (editor s) (isReversed s) (isRawSelection s) (delimiter s)
    (contentRange s) (interiorRange s) r (trailingDelimiterRange s)
    (boundary s).

Definition set_trailingDelimiterRange (s : TypedSelection) (r : option Range)
  : TypedSelection :=
  mkTypedSelection (editor s) (isReversed s) (isRawSelection s) (delimiter s)
    (contentRange s) (interiorRange s) (leadingDelimiterRange s) r
    (boundary s).

End Types.

(** ** src/processTargets/modifiers/PositionStage.ts *)

Module PositionStage.
Import Vscode Types.

(** The descriptor of the stage. At run time [position] is a string; its
    declared type admits the four literals of the [switch] below. *)
Record PositionModifier : Type := mkPositionModifier {
  position : Js.JsString
}.

(** [range(position?)] *)
Definition range (position : option Position) : option Range :=
  match position with
  | Some p => Some (new_Range p p)
  | None => None
  end.

(** [range(p)!] on a position that is there: the assertion is erased at
    run time, and [range (Some p)] is never [None]. *)
Definition range_defined (p : Position) : Range :=
  match range (Some p) with
  | Some r => r
  | None => new_Range p p
  end.

(** [run]: a [switch] on [stage.position] without a [default] case. *)
Definition run {H S : Type} (context : ProcessedTargetsContext H S)
  (stage : PositionModifier) (selection : TypedSelection) : TypedSelection :=
  let res := selection in
  if Js.eqb (position stage) (Js.lit "before")
     || Js.eqb (position stage) (Js.lit "start")
  then
    let res := set_contentRange res (range_defined (start (contentRange res))) in
    let res := set_interiorRange res
                 (range (option_map start (interiorRange res))) in
    res
  else if Js.eqb (position stage) (Js.lit "after")
          || Js.eqb (position stage) (Js.lit "end")
  then
    let res := set_contentRange res (range_defined (end_ (contentRange res))) in
    let res := set_interiorRange res
                 (range (option_map end_ (interiorRange res))) in
    res
  else res.

End PositionStage.

(** ** src/processTargets/pipelineStages/TokenStage.ts *)

Module TokenStage.
Import Vscode Types.

Local Open Scope result_scope.

(** The object [getDelimiterRanges] returns. *)
Record DelimiterRanges : Type := mkDelimiterRanges {
  leading : option Range;
  trailing : option Range
}.

(** The flag [isInDelimitedList] (lines 51-54). *)
Definition isInDelimitedList
  (leadingDelimiterRange trailingDelimiterRange : option Range)
  (start end_ : Position) (endLine : TextLine) : bool :=
  (Js.notNull leadingDelimiterRange || Js.notNull trailingDelimiterRange)
  && (Js.notNull leadingDelimiterRange || (character start =? 0))
  && (Js.notNull trailingDelimiterRange
      || isEqual end_ (Vscode.end_ (Vscode.range endLine))).

Definition getDelimiterRanges (selection : TypedSelection)
  : Result DelimiterRanges :=
  let document := document (editor selection) in
  let start := Vscode.start (contentRange selection) in
  let end_ := Vscode.end_ (contentRange selection) in
  endLine <- lineAt document end_ ;;
  startLine <- lineAt document start ;;
  let leadingText := Js.slice (text startLine) 0 (Some (character start)) in
  let leadingDelimiters := Js.match_ leadingText Js.re_ws_end in
  leadingDelimiterRange <-
    match leadingDelimiters with
    | Some (_, m0) =>
        r <- new_Range4
               (Z.of_nat (line start))
               (Z.of_nat (character start) - Z.of_nat (length m0))
               (Z.of_nat (line start))
               (Z.of_nat (character start)) ;;
        Ok (Some r)
    | None => Ok None
    end ;;
  let trailingText := Js.slice (text endLine) (character end_) None in
  let trailingDelimiters := Js.match_ trailingText Js.re_start_ws in
  trailingDelimiterRange <-
    match trailingDelimiters with
    | Some (_, m0) =>
        r <- new_Range4
               (Z.of_nat (line end_))
               (Z.of_nat (character end_))
               (Z.of_nat (line end_))
               (Z.of_nat (character end_) + Z.of_nat (length m0)) ;;
        Ok (Some r)
    | None => Ok None
    end ;;
  let isInDelimitedList :=
    isInDelimitedList leadingDelimiterRange trailingDelimiterRange
      start end_ endLine in
  Ok (mkDelimiterRanges
        (if isInDelimitedList then leadingDelimiterRange else None)
        (if isInDelimitedList then trailingDelimiterRange else None)).

(** [run]: the spread of the selection, then [delimiter], then the two
    fields of [getDelimiterRanges]. The descriptor type is declared
    outside the files modelled here and is not read. *)
Definition run {H S Descriptor : Type} (context : ProcessedTargetsContext H S)
  (stage : Descriptor) (selection : TypedSelection) : Result TypedSelection :=
  ranges <- getDelimiterRanges selection ;;
  Ok (set_trailingDelimiterRange
        (set_leadingDelimiterRange
           (set_delimiter selection (Some (Js.lit " ")))
           (leading ranges))
        (trailing ranges)).

End TokenStage.

(** ** Vocabulary of the specification *)

Module Spec.
Import Vscode Types.

(** The text ends with a whitespace code unit. *)
Fixpoint endsWithWhiteSpace (s : Js.JsString) : bool :=
  match s with
  | [] => false
  | [c] => Js.isWhiteSpace c
  | _ :: s' => endsWithWhiteSpace s'
  end.

(** The text starts with a whitespace code unit. *)
Definition startsWithWhiteSpace (s : Js.JsString) : bool :=
  match s with
  | [] => false
  | c :: _ => Js.isWhiteSpace c
  end.

(** Column [col] of a line with text [t] has whitespace just before it,
    respectively at it. *)
Definition precededByWhiteSpace (t : Js.JsString) (col : nat) : bool :=
  endsWithWhiteSpace (firstn col t).

Definition followedByWhiteSpace (t : Js.JsString) (col : nat) : bool :=
  startsWithWhiteSpace (skipn col t).

(** Column [k] of the text holds a whitespace code unit, respectively a
    code unit that is not whitespace. *)
Definition whiteSpaceAt (t : Js.JsString) (k : nat) : Prop :=
  exists c, nth_error t k = Some c /\ Js.isWhiteSpace c = true.

Definition otherAt (t : Js.JsString) (k : nat) : Prop :=
  exists c, nth_error t k = Some c /\ Js.isWhiteSpace c = false.

(** The text of a line of the document, if the line exists. *)
Definition lineText (d : TextDocument) (l : nat) : option Js.JsString :=
  nth_error (lines d) l.

(** The position denotes a place of the document: an existing line and a
    column between 0 and the length of the line. *)
Definition inDocument (d : TextDocument) (p : Position) : Prop :=
  exists t, lineText d (line p) = Some t /\ character p <= length t.

(** The leading scan (lines 27-37) and the trailing scan (lines 39-49)
    of [getDelimiterRanges] on the texts of their lines, as plain values. *)
Definition leadingScan (t : Js.JsString) (start : Position) : option Range :=
  match Js.match_ (Js.slice t 0 (Some (character start))) Js.re_ws_end with
  | Some (_, m0) =>
      Some (mkRange (mkPosition (line start) (character start - length m0))
              start)
  | None => None
  end.

Definition trailingScan (t : Js.JsString) (end_ : Position) : option Range :=
  match Js.match_ (Js.slice t (character end_) None) Js.re_start_ws with
  | Some (_, m0) =>
      Some (mkRange end_
              (mkPosition (line end_) (character end_ + length m0)))
  | None => None
  end.

(** The qualification policy in the words of the specification: a
    delimiter was found on at least one side, the leading side has one or
    starts at column 0, the trailing side has one or ends at the
    end-of-line position of its line. *)
Definition qualifies (startText endText : Js.JsString) (start end_ : Position)
  : bool :=
  let foundLeading := precededByWhiteSpace startText (character start) in
  let foundTrailing := followedByWhiteSpace endText (character end_) in
  (foundLeading || foundTrailing)
  && (foundLeading || (character start =? 0))
  && (foundTrailing
      || isEqual end_ (mkPosition (line end_) (length endText))).

(** The lines of both ends of the content range exist in the document of
    the selection, with the given texts. *)
Definition linesOf (s : TypedSelection) (startText endText : Js.JsString)
  : Prop :=
  lineText (document (editor s)) (line (start (contentRange s)))
    = Some startText
  /\ lineText (document (editor s)) (line (end_ (contentRange s)))
     = Some endText.

(** [r] covers exactly the maximal run of whitespace just before
    position [p] on a line with text [t]: it lies on the line of [p], ends
    at [p], is not empty, holds only whitespace, and the run cannot be
    extended to the left. *)
Definition maximalWhiteSpaceBefore (t : Js.JsString) (p : Position)
  (r : Range) : Prop :=
  end_ r = p
  /\ line (start r) = line p
  /\ character (start r) < character p
  /\ (forall k, character (start r) <= k < character p -> whiteSpaceAt t k)
  /\ (character (start r) = 0 \/ otherAt t (character (start r) - 1)).

(** [r] covers exactly the maximal run of whitespace just after position
    [p] on a line with text [t]. *)
Definition maximalWhiteSpaceAfter (t : Js.JsString) (p : Position)
  (r : Range) : Prop :=
  start r = p
  /\ line (end_ r) = line p
  /\ character p < character (end_ r)
  /\ (forall k, character p <= k < character (end_ r) -> whiteSpaceAt t k)
  /\ (character (end_ r) = length t \/ otherAt t (character (end_ r))).

(** [r] lies on line [l], whose text is [t], within its columns. *)
Definition withinLine (t : Js.JsString) (l : nat) (r : Range) : Prop :=
  line (start r) = l /\ line (end_ r) = l
  /\ character (start r) <= character (end_ r)
  /\ character (end_ r) <= length t.

(** The two ranges have no position in common other than [p]. *)
Definition meetOnlyAt (r1 r2 : Range) (p : Position) : Prop :=
  forall q, contains r1 q = true -> contains r2 q = true -> q = p.

(** The zero-width range at a position. *)
Definition pointRange (p : Position) : Range := mkRange p p.

(** The values of [position] the Position stage has a case for. *)
Definition beforeOrStart (p : Js.JsString) : Prop :=
  p = Js.lit "before" \/ p = Js.lit "start".

Definition afterOrEnd (p : Js.JsString) : Prop :=
  p = Js.lit "after" \/ p = Js.lit "end".

Definition recognized (p : Js.JsString) : Prop :=
  beforeOrStart p \/ afterOrEnd p.

End Spec.

(** ** Sample documents and selections *)

Module Examples.
Import Vscode Types.

Definition exDocument : TextDocument :=
  mkTextDocument
    [Js.lit "foo bar baz"; Js.lit "bar baz"; Js.lit "foobar";
     Js.lit "a foobar"; Js.lit "ab  "; Js.lit "foo"].

Definition exEditor : TextEditor := mkTextEditor 1 exDocument.

Definition exContext : ProcessedTargetsContext unit unit :=
  mkProcessedTargetsContext tt [] [] (fun _ => tt).

(** A selection of [exEditor] with the given content range and nothing
    else. *)
Definition exSelection (l1 c1 l2 c2 : nat) : TypedSelection :=
  mkTypedSelection exEditor None None None
    (mkRange (mkPosition l1 c1) (mkPosition l2 c2)) None None None None.

(** [bar] in [foo bar baz]. *)
Definition exBar : TypedSelection := exSelection 0 4 0 7.

(** A selection over three lines with an interior range, a comma as its
    delimiter and a leading delimiter range of its own. *)
Definition exWide : TypedSelection :=
  mkTypedSelection exEditor (Some true) (Some false) (Some (Js.lit ","))
    (mkRange (mkPosition 0 4) (mkPosition 2 3))
    (Some (mkRange (mkPosition 0 5) (mkPosition 2 1)))
    (Some (mkRange (mkPosition 0 3) (mkPosition 0 4)))
    None
    (Some [mkRange (mkPosition 0 4) (mkPosition 0 5);
           mkRange (mkPosition 2 2) (mkPosition 2 3)]).

Definition exModifier (p : string) : PositionStage.PositionModifier :=
  PositionStage.mkPositionModifier (Js.lit p).

End Examples.

(** ** The sidecar functions (sidecar mode of the extension) *)

Module Sidecar.
Import Js.

(** [vscode.ExtensionMode]. *)
Inductive ExtensionMode : Type := Production | Development | Test.

(** A thrown value: [mkJsError message] is the object [new Error(message)]
    that [sidecarSetup] creates itself; [thrownValue stringForm] is a value
    thrown by a callee, of which the code reads nothing but its string form
    (the result of its own [toString], for instance
    [TypeError [ERR_INVALID_ARG_VALUE]: ...] or [Error: EACCES: ...] from
    [fs.mkdirSync]). *)
Inductive JsError : Type :=
| mkJsError (message : JsString)
| thrownValue (stringForm : JsString).

(** The string form of a thrown value in a template literal: for
    [new Error(message)] the name [Error], then a colon and the message
    unless the message is empty; for a value thrown by a callee its own
    string form. *)
Definition errorString (e : JsError) : JsString :=
  match e with
  | mkJsError [] => lit "Error"
  | mkJsError (c :: message) => lit "Error: " ++ c :: message
  | thrownValue stringForm => stringForm
  end.

(** A string in a condition: the empty string is false. *)
Definition truthy (s : JsString) : bool :=
  match s with
  | [] => false
  | _ :: _ => true
  end.

(** The class [[\w-]]: letters, digits, underscore and the dash. *)
Definition isWordOrDash (c : CodeUnit) : bool :=
  (((48 <=? c) && (c <=? 57)) || ((65 <=? c) && (c <=? 90))
   || ((97 <=? c) && (c <=? 122)) || (c =? 95) || (c =? 45))%N.

(** [/^[\w-]+$/] *)
Definition re_prefix : Pattern :=
  [AssertStart; ClassPlus isWordOrDash; AssertEnd].

(** The calls [sidecarSetup] makes on the file system, the window and the
    rest of the extension, in the order they are made. *)
Inductive Action : Type :=
| ExistsSync (path : JsString)
| MkdirSync (path : JsString)
| ShowErrorMessage (text : JsString)
| RegisterFileWatchers (rootDirectory : JsString)
| StartCommandServer (rootDirectory : JsString)
| ShowInformationMessage (text : JsString).

(** What the callees answer: whether a path exists, and for the calls that
    return nothing, the error they throw, if any. [registerFileWatchers] and
    [startCommandServer] are declared outside the files modelled here. *)
Record Host : Type := mkHost {
  existsSync : JsString -> bool;
  mkdirSync : JsString -> option JsError;
  registerFileWatchers : JsString -> option JsError;
  startCommandServer : JsString -> option JsError
}.

Inductive Outcome (A : Type) : Type :=
| Returned (a : A)
| Threw (e : JsError).

Arguments Returned {A} a.
Arguments Threw {A} e.

(** A computation: the calls made so far and how it ended. *)
Definition Run (A : Type) : Type := (list Action * Outcome A)%type.

Definition ret {A : Type} (a : A) : Run A := ([], Returned a).

Definition throw {A : Type} (e : JsError) : Run A := ([], Threw e).

Definition bindRun {A B : Type} (m : Run A) (k : A -> Run B) : Run B :=
  match m with
  | (t, Returned a) => let (t', o) := k a in (t ++ t', o)
  | (t, Threw e) => (t, Threw e)
  end.

(** [try { m } catch (e) { handler e }] *)
Definition tryCatch {A : Type} (m : Run A) (handler : JsError -> Run A)
  : Run A :=
  match m with
  | (t, Returned a) => (t, Returned a)
  | (t, Threw e) => let (t', o) := handler e in (t ++ t', o)
  end.

(** A call that returns nothing or throws. *)
Definition call (a : Action) (answer : option JsError) : Run unit :=
  ([a], match answer with
        | None => Returned tt
        | Some e => Threw e
        end).

Declare Scope run_scope.
Delimit Scope run_scope with run.
Notation "x <- m ;; k" := (bindRun m (fun x => k))
  (at level 61, m at next level, right associativity) : run_scope.

(** [sidecarSetup] (lines 120-145). *)
Definition sidecarSetup (host : Host) (rootDirectory sidecarPrefix : JsString)
  : Run unit :=
  (checked <-
     (if truthy sidecarPrefix
         && negb (notNull (match_ sidecarPrefix re_prefix))
      then throw (mkJsError
                    (lit "Sidecar prefix cannot contain special characters: ("
                     ++ sidecarPrefix ++ lit ")"))
      else ret tt) ;;
   created <-
     tryCatch
       (found <- ([ExistsSync rootDirectory],
                  Returned (existsSync host rootDirectory)) ;;
        if negb found
        then call (MkdirSync rootDirectory) (mkdirSync host rootDirectory)
        else ret tt)
       (fun e =>
          call (ShowErrorMessage
                  (lit "Error creating " ++ rootDirectory
                   ++ lit " (nonfatal): " ++ errorString e))
            None) ;;
   watching <-
     call (RegisterFileWatchers rootDirectory)
       (registerFileWatchers host rootDirectory) ;;
   serving <-
     call (StartCommandServer rootDirectory)
       (startCommandServer host rootDirectory) ;;
   call (ShowInformationMessage
           (lit "Cursorless has successfully started in sidecar mode!"
            ++ (if truthy sidecarPrefix
                then lit " (prefix: " ++ sidecarPrefix ++ lit "/)"
                else lit "")))
     None)%run.

(** [sidecarPrefix] (lines 164-178): [env] is the value of the environment
    variable CURSORLESS_SIDECAR_PREFIX, [None] when it is not set; of the
    extension context only the mode is read. *)
Definition sidecarPrefix (env : option JsString) (extensionMode : ExtensionMode)
  : JsString :=
  let byMode :=
    match extensionMode with
    | Development => lit "debug"
    | _ => lit ""
    end in
  match env with
  | Some e => if truthy e then e else byMode
  | None => byMode
  end.

(** A host on which the directory is missing and cannot be created. *)
Definition exHost : Host :=
  mkHost (fun _ => false) (fun _ => Some (mkJsError (lit "EACCES")))
    (fun _ => None) (fun _ => None).

(** A host on which the directory is missing and [mkdirSync] refuses the
    path with a [TypeError]. *)
Definition exHostInvalidPath : Host :=
  mkHost (fun _ => false)
    (fun _ =>
       Some (thrownValue
               (lit "TypeError [ERR_INVALID_ARG_VALUE]: invalid path")))
    (fun _ => None) (fun _ => None).

End Sidecar.

(** ** Further sample selections *)

Module MoreExamples.
Import Vscode Types Examples.

(** The output of the Token stage on [exBar]. *)
Definition exBarOut : TypedSelection :=
  mkTypedSelection exEditor None None (Some (Js.lit " "))
    (mkRange (mkPosition 0 4) (mkPosition 0 7)) None
    (Some (mkRange (mkPosition 0 3) (mkPosition 0 4)))
    (Some (mkRange (mkPosition 0 7) (mkPosition 0 8)))
    None.

(** The output of the Token stage on a selection whose start column is past
    the end of its line. *)
Definition exPastOut : TypedSelection :=
  mkTypedSelection exEditor None None (Some (Js.lit " "))
    (mkRange (mkPosition 4 10) (mkPosition 5 3)) None
    (Some (mkRange (mkPosition 4 8) (mkPosition 4 10)))
    None
    None.

End MoreExamples.

(** * Facts *)

(** ** The two regular expressions *)

Section RegExpFacts.
Import Js Spec.

Lemma matchHere_ws_end (b : bool) (s : JsString) :
  matchHere re_ws_end b s =
  match s with
  | [] => None
  | _ :: _ => if forallb isWhiteSpace s then Some (length s) else None
  end.
Proof.
  unfold re_ws_end.
  induction s as [|c s IH]; [reflexivity|].
  simpl in *. destruct (isWhiteSpace c); [|reflexivity].
  simpl. rewrite IH. destruct s as [|d s]; [reflexivity|].
  destruct (forallb isWhiteSpace (d :: s)); reflexivity.
Qed.

Lemma endsWithWhiteSpace_cons (c d : CodeUnit) (s : JsString) :
  endsWithWhiteSpace (c :: d :: s) = endsWithWhiteSpace (d :: s).
Proof. reflexivity. Qed.

Lemma forallb_endsWithWhiteSpace (s : JsString) :
  s <> [] -> forallb isWhiteSpace s = true -> endsWithWhiteSpace s = true.
Proof.
  induction s as [|c s IH]; [congruence|].
  intros _ H. apply andb_prop in H. destruct H as [Hc Hs].
  destruct s as [|d s]; [exact Hc|].
  rewrite endsWithWhiteSpace_cons. apply IH; [discriminate|exact Hs].
Qed.

(** [/\s+$/] finds a match exactly when the text ends with whitespace. *)
Lemma execFrom_ws_end_notNull (s : JsString) (i : nat) :
  notNull (execFrom re_ws_end i s) = endsWithWhiteSpace s.
Proof.
  revert i. induction s as [|c s IH]; intro i; [reflexivity|].
  cbn [execFrom]. rewrite matchHere_ws_end.
  destruct (forallb isWhiteSpace (c :: s)) eqn:E.
  - cbn [notNull]. symmetry.
    apply forallb_endsWithWhiteSpace; [discriminate|exact E].
  - rewrite IH. destruct s as [|d s]; [|reflexivity].
    simpl in *. rewrite andb_true_r in E. now rewrite E.
Qed.

(** The match of [/\s+$/] is the longest suffix made of whitespace. *)
Lemma execFrom_ws_end_Some (s : JsString) (i j : nat) (m : JsString) :
  execFrom re_ws_end i s = Some (j, m) ->
  exists k,
    j = i + k /\ k + length m = length s /\ m = skipn k s /\ 0 < length m
    /\ forallb isWhiteSpace m = true
    /\ (k = 0 \/ otherAt s (k - 1)).
Proof.
  revert i. induction s as [|c s IH]; intros i H.
  - discriminate H.
  - cbn [execFrom] in H. rewrite matchHere_ws_end in H.
    destruct (forallb isWhiteSpace (c :: s)) eqn:E.
    + injection H as <- <-. exists 0. rewrite firstn_all.
      repeat split; simpl; try lia; auto.
    + apply IH in H. destruct H as (k & -> & Hlen & Hm & Hpos & Hws & Hmax).
      exists (S k). repeat split; simpl; try lia; auto.
      right. destruct Hmax as [-> | Hother].
      * simpl in Hm. subst m. simpl in E. rewrite Hws, andb_true_r in E.
        exists c. split; [reflexivity|exact E].
      * rewrite Nat.sub_0_r. destruct k as [|k].
        -- simpl in Hm. subst m. simpl in E. rewrite Hws, andb_true_r in E.
           exists c. split; [reflexivity|exact E].
        -- simpl in Hother. rewrite Nat.sub_0_r in Hother. exact Hother.
Qed.

Lemma execFrom_start_ws_later (s : JsString) (i : nat) :
  execFrom re_start_ws (S i) s = None.
Proof.
  revert i. induction s as [|c s IH]; intro i; [reflexivity|].
  cbn [execFrom]. simpl. apply IH.
Qed.

Lemma matchHere_start_ws_None (s : JsString) :
  matchHere re_start_ws true s = None -> startsWithWhiteSpace s = false.
Proof.
  unfold re_start_ws. destruct s as [|c s]; [reflexivity|].
  simpl. destruct (isWhiteSpace c); [|reflexivity].
  match goal with |- context [match ?x with _ => _ end] => destruct x end;
    discriminate.
Qed.

Lemma matchHere_start_ws_Some (s : JsString) (n : nat) :
  matchHere re_start_ws true s = Some n ->
  0 < n /\ n <= length s /\ forallb isWhiteSpace (firstn n s) = true
  /\ startsWithWhiteSpace (skipn n s) = false.
Proof.
  unfold re_start_ws. revert n.
  induction s as [|c s IH]; intros n H; [discriminate H|].
  simpl in H. destruct (isWhiteSpace c) eqn:Ec; [|discriminate H].
  simpl in IH.
  match type of H with
  | context [match ?x with _ => _ end] => destruct x as [k|] eqn:Ek
  end.
  - injection H as <-. destruct (IH k eq_refl) as (Hk & Hle & Hall & Hrest).
    repeat split; simpl; try lia; auto. now rewrite Ec, Hall.
  - injection H as <-. repeat split; simpl; try lia.
    + now rewrite Ec.
    + apply matchHere_start_ws_None. unfold re_start_ws. simpl. exact Ek.
Qed.

(** [/^\s+/] finds a match exactly when the text starts with whitespace. *)
Lemma match_start_ws_notNull (s : JsString) :
  notNull (match_ s re_start_ws) = startsWithWhiteSpace s.
Proof.
  unfold match_. destruct s as [|c s]; [reflexivity|].
  cbn [execFrom]. change (0 =? 0) with true.
  destruct (matchHere re_start_ws true (c :: s)) as [n|] eqn:E.
  - simpl. apply matchHere_start_ws_Some in E.
    destruct E as (Hn & _ & Hall & _). destruct n; [lia|].
    simpl in Hall. apply andb_prop in Hall. symmetry. apply Hall.
  - rewrite execFrom_start_ws_later. simpl.
    apply matchHere_start_ws_None in E. symmetry. exact E.
Qed.

(** The match of [/^\s+/] is the longest prefix made of whitespace. *)
Lemma match_start_ws_Some (s : JsString) (j : nat) (m : JsString) :
  match_ s re_start_ws = Some (j, m) ->
  j = 0 /\ m = firstn (length m) s /\ 0 < length m /\ length m <= length s
  /\ forallb isWhiteSpace m = true
  /\ startsWithWhiteSpace (skipn (length m) s) = false.
Proof.
  unfold match_. intro H.
  assert (Hn : exists n, matchHere re_start_ws true s = Some n
                         /\ j = 0 /\ m = firstn n s).
  { destruct s as [|c s]; [discriminate H|].
    cbn [execFrom] in H. change (0 =? 0) with true in H.
    destruct (matchHere re_start_ws true (c :: s)) as [n|].
    - injection H as <- <-. now exists n.
    - now rewrite execFrom_start_ws_later in H. }
  destruct Hn as (n & Hn & -> & ->).
  apply matchHere_start_ws_Some in Hn. destruct Hn as (Hpos & Hle & Hall & Hrest).
  rewrite length_firstn, Nat.min_l by exact Hle. auto 10.
Qed.

End RegExpFacts.

(** ** Strings, positions and lines *)

Section EditorFacts.
Import Vscode Spec.

Lemma eqb_eq (a b : Js.JsString) : Js.eqb a b = true <-> a = b.
Proof.
  unfold Js.eqb. destruct (list_eq_dec N.eq_dec a b); split;
    congruence.
Qed.

Lemma slice_prefix (t : Js.JsString) (col : nat) :
  Js.slice t 0 (Some col) = firstn col t.
Proof.
  unfold Js.slice. simpl. rewrite Nat.sub_0_r.
  destruct (Nat.le_gt_cases col (length t)) as [H|H].
  - now rewrite Nat.min_l.
  - rewrite Nat.min_r by lia. now rewrite !firstn_all2 by lia.
Qed.

Lemma slice_suffix (t : Js.JsString) (col : nat) :
  Js.slice t col None = skipn col t.
Proof.
  unfold Js.slice.
  rewrite firstn_all2 by (rewrite length_skipn; lia).
  destruct (Nat.le_gt_cases col (length t)) as [H|H].
  - now rewrite Nat.min_l.
  - rewrite Nat.min_r by lia. now rewrite !skipn_all2 by lia.
Qed.

Lemma position_eta (p : Position) :
  mkPosition (line p) (character p) = p.
Proof. now destruct p. Qed.

Lemma isBefore_irrefl (p : Position) : isBefore p p = false.
Proof. unfold isBefore. now rewrite !Nat.ltb_irrefl. Qed.

Lemma new_Range_point (p : Position) : new_Range p p = pointRange p.
Proof. unfold new_Range. now rewrite isBefore_irrefl. Qed.

Lemma isEqual_eq (a b : Position) : isEqual a b = true <-> a = b.
Proof.
  unfold isEqual. rewrite andb_true_iff, !Nat.eqb_eq.
  destruct a, b; simpl; split; [intros [-> ->]; reflexivity|].
  intro H; injection H; auto.
Qed.

Lemma isBeforeOrEqual_antisym (a b : Position) :
  isBeforeOrEqual a b = true -> isBeforeOrEqual b a = true -> a = b.
Proof.
  unfold isBeforeOrEqual, isBefore, isEqual.
  destruct a as [la ca], b as [lb cb]. simpl.
  destruct (Nat.ltb_spec la lb), (Nat.ltb_spec lb la),
    (Nat.ltb_spec ca cb), (Nat.ltb_spec cb ca),
    (Nat.eqb_spec la lb), (Nat.eqb_spec lb la),
    (Nat.eqb_spec ca cb), (Nat.eqb_spec cb ca);
    simpl; intros; try discriminate; try lia; f_equal; lia.
Qed.

(** A range on one line, given by its columns in increasing order, is
    built without an exception and without a swap. *)
Lemma new_Range4_line (l a b : nat) :
  a <= b ->
  new_Range4 (Z.of_nat l) (Z.of_nat a) (Z.of_nat l) (Z.of_nat b)
  = Ok (mkRange (mkPosition l a) (mkPosition l b)).
Proof.
  intro H. unfold new_Range4, new_Position.
  repeat match goal with
         | |- context [(Z.of_nat ?n <? 0)%Z] =>
             replace (Z.of_nat n <? 0)%Z with false
               by (symmetry; apply Z.ltb_ge; lia)
         end.
  simpl. rewrite !Nat2Z.id. unfold new_Range, isBefore. simpl.
  rewrite Nat.ltb_irrefl.
  destruct (a <? b) eqn:E; [reflexivity|].
  apply Nat.ltb_ge in E. now replace b with a by lia.
Qed.

Lemma lineAt_Ok (d : TextDocument) (p : Position) (t : Js.JsString) :
  lineText d (line p) = Some t ->
  lineAt d p
  = Ok (mkTextLine (line p) t
          (mkRange (mkPosition (line p) 0) (mkPosition (line p) (length t)))).
Proof. unfold lineAt, lineText. now intros ->. Qed.

Lemma lineAt_Throw (d : TextDocument) (p : Position) :
  lineText d (line p) = None -> lineAt d p = Throw IllegalLine.
Proof. unfold lineAt, lineText. now intros ->. Qed.

Lemma nth_error_firstn_lt (t : Js.JsString) (n k : nat) :
  k < n -> nth_error (firstn n t) k = nth_error t k.
Proof.
  revert n k. induction t as [|c t IH]; intros n k H.
  - now rewrite firstn_nil.
  - destruct n; [lia|]. destruct k; [reflexivity|].
    simpl. apply IH. lia.
Qed.

Lemma nth_error_skipn_add (t : Js.JsString) (n k : nat) :
  nth_error (skipn n t) k = nth_error t (n + k).
Proof.
  revert t. induction n as [|n IH]; intro t; [reflexivity|].
  destruct t as [|c t]; [now destruct k|]. simpl. apply IH.
Qed.

Lemma forallb_whiteSpaceAt (m : Js.JsString) (k : nat) :
  forallb Js.isWhiteSpace m = true -> k < length m -> whiteSpaceAt m k.
Proof.
  intros Hall Hk. destruct (nth_error m k) as [c|] eqn:E.
  - exists c. split; [exact E|].
    rewrite forallb_forall in Hall. apply Hall.
    eapply nth_error_In. exact E.
  - apply nth_error_None in E. lia.
Qed.

Lemma startsWithWhiteSpace_false (s : Js.JsString) :
  startsWithWhiteSpace s = false -> s = [] \/ otherAt s 0.
Proof.
  destruct s as [|c s]; [now left|]. simpl. intro H. right.
  exists c. now split.
Qed.

End EditorFacts.

(** ** The scans of the Token stage *)

Section ScanFacts.
Import Vscode Types Spec.

Lemma leadingScan_notNull (t : Js.JsString) (p : Position) :
  Js.notNull (leadingScan t p) = precededByWhiteSpace t (character p).
Proof.
  unfold leadingScan, precededByWhiteSpace, Js.match_.
  rewrite slice_prefix, <- (execFrom_ws_end_notNull _ 0).
  now destruct (Js.execFrom Js.re_ws_end 0 (firstn (character p) t))
    as [[j m]|].
Qed.

Lemma trailingScan_notNull (t : Js.JsString) (p : Position) :
  Js.notNull (trailingScan t p) = followedByWhiteSpace t (character p).
Proof.
  unfold trailingScan, followedByWhiteSpace.
  rewrite slice_suffix, <- match_start_ws_notNull.
  now destruct (Js.match_ (skipn (character p) t) Js.re_start_ws)
    as [[j m]|].
Qed.

(** The match of the leading scan is never longer than the column of the
    start position: the subtraction of line 33 does not go below 0. *)
Lemma leading_match_length (t : Js.JsString) (col j : nat) (m : Js.JsString) :
  Js.match_ (Js.slice t 0 (Some col)) Js.re_ws_end = Some (j, m) ->
  0 < length m /\ length m <= col /\ length m <= length t.
Proof.
  unfold Js.match_. rewrite slice_prefix. intro H.
  apply execFrom_ws_end_Some in H.
  destruct H as (k & _ & Hlen & _ & Hpos & _).
  rewrite length_firstn in Hlen. lia.
Qed.

Lemma leadingScan_Some (t : Js.JsString) (p : Position) (r : Range) :
  leadingScan t p = Some r ->
  exists n,
    0 < n /\ n <= character p /\ n <= length t
    /\ r = mkRange (mkPosition (line p) (character p - n)) p
    /\ (character p <= length t ->
        (forall k, character p - n <= k < character p -> whiteSpaceAt t k)
        /\ (character p - n = 0 \/ otherAt t (character p - n - 1))).
Proof.
  unfold leadingScan.
  destruct (Js.match_ (Js.slice t 0 (Some (character p))) Js.re_ws_end)
    as [[j m]|] eqn:E; [|discriminate].
  intro H. injection H as <-.
  destruct (leading_match_length _ _ E) as (Hpos & Hcol & Hlen).
  exists (length m). repeat split; try assumption.
  - intros k Hk. unfold Js.match_ in E. rewrite slice_prefix in E.
    apply execFrom_ws_end_Some in E.
    destruct E as (i & _ & Hi & Hm & _ & Hall & _).
    rewrite length_firstn, Nat.min_l in Hi by assumption.
    assert (Hw : whiteSpaceAt m (k - i))
      by (apply forallb_whiteSpaceAt; [assumption|lia]).
    destruct Hw as (c & Hc & Hws). exists c. split; [|exact Hws].
    rewrite Hm, nth_error_skipn_add in Hc.
    replace (i + (k - i)) with k in Hc by lia.
    now rewrite nth_error_firstn_lt in Hc by lia.
  - unfold Js.match_ in E. rewrite slice_prefix in E.
    apply execFrom_ws_end_Some in E.
    destruct E as (i & _ & Hi & _ & _ & _ & Hmax).
    rewrite length_firstn, Nat.min_l in Hi by assumption.
    replace (character p - length m) with i by lia.
    destruct i as [|i]; [now left|right].
    destruct Hmax as [Hmax|(c & Hc & Hws)]; [discriminate Hmax|].
    exists c. split; [|exact Hws].
    now rewrite nth_error_firstn_lt in Hc by lia.
Qed.

Lemma trailingScan_Some (t : Js.JsString) (p : Position) (r : Range) :
  trailingScan t p = Some r ->
  exists n,
    0 < n /\ character p + n <= length t
    /\ r = mkRange p (mkPosition (line p) (character p + n))
    /\ (forall k, character p <= k < character p + n -> whiteSpaceAt t k)
    /\ (character p + n = length t \/ otherAt t (character p + n)).
Proof.
  unfold trailingScan. rewrite slice_suffix.
  destruct (Js.match_ (skipn (character p) t) Js.re_start_ws)
    as [[j m]|] eqn:E; [|discriminate].
  intro H. injection H as <-.
  apply match_start_ws_Some in E.
  destruct E as (_ & Hm & Hpos & Hlen & Hall & Hrest).
  rewrite length_skipn in Hlen.
  exists (length m). repeat split; try assumption; try lia.
  - intros k Hk.
    assert (Hw : whiteSpaceAt m (k - character p))
      by (apply forallb_whiteSpaceAt; [assumption|lia]).
    destruct Hw as (c & Hc & Hws). exists c. split; [|exact Hws].
    rewrite Hm, nth_error_firstn_lt, nth_error_skipn_add in Hc by lia.
    now replace (character p + (k - character p)) with k in Hc by lia.
  - apply startsWithWhiteSpace_false in Hrest.
    destruct Hrest as [Hnil|(c & Hc & Hws)].
    + left. apply (f_equal (@length _)) in Hnil.
      rewrite !length_skipn in Hnil. simpl in Hnil. lia.
    + right. exists c. split; [|exact Hws].
      rewrite !nth_error_skipn_add in Hc.
      now rewrite Nat.add_0_r in Hc.
Qed.

(** With both lines in the document, [getDelimiterRanges] returns, and its
    result is made of the two scans and the flag: no range constructor
    throws or reorders its positions. *)
Lemma getDelimiterRanges_eq (s : TypedSelection) (st et : Js.JsString) :
  linesOf s st et ->
  exists endLine,
    lineAt (document (editor s)) (end_ (contentRange s)) = Ok endLine
    /\ text endLine = et
    /\ TokenStage.getDelimiterRanges s
       = Ok (let l := leadingScan st (start (contentRange s)) in
             let t := trailingScan et (end_ (contentRange s)) in
             let q := TokenStage.isInDelimitedList l t
                        (start (contentRange s)) (end_ (contentRange s))
                        endLine in
             TokenStage.mkDelimiterRanges
               (if q then l else None) (if q then t else None)).
Proof.
  intros [Hs He]. eexists. split; [apply lineAt_Ok; exact He|].
  split; [reflexivity|].
  unfold TokenStage.getDelimiterRanges.
  rewrite (lineAt_Ok _ _ He), (lineAt_Ok _ _ Hs).
  cbn [bind text]. unfold leadingScan, trailingScan.
  destruct (Js.match_ (Js.slice st 0 _) Js.re_ws_end) as [[j m]|] eqn:El.
  - destruct (leading_match_length _ _ El) as (Hpos & Hcol & _).
    rewrite <- Nat2Z.inj_sub by exact Hcol.
    rewrite new_Range4_line by lia. cbn [bind].
    destruct (Js.match_ (Js.slice et _ None) Js.re_start_ws) as [[j' m']|].
    + rewrite <- Nat2Z.inj_add, new_Range4_line by lia.
      cbn [bind]. now rewrite !position_eta.
    + cbn [bind]. now rewrite !position_eta.
  - cbn [bind].
    destruct (Js.match_ (Js.slice et _ None) Js.re_start_ws) as [[j' m']|].
    + rewrite <- Nat2Z.inj_add, new_Range4_line by lia.
      cbn [bind]. now rewrite !position_eta.
    + reflexivity.
Qed.

(** Without one of the two lines, [getDelimiterRanges] throws, and so does
    [run]: there is no output. *)
Lemma run_Throw {H S D : Type} (context : ProcessedTargetsContext H S)
  (stage : D) (s : TypedSelection) :
  lineText (document (editor s)) (line (start (contentRange s))) = None
  \/ lineText (document (editor s)) (line (end_ (contentRange s))) = None ->
  TokenStage.run context stage s = Throw IllegalLine.
Proof.
  unfold TokenStage.run, TokenStage.getDelimiterRanges. intros [Hn|Hn].
  - rewrite (lineAt_Throw _ _ Hn).
    destruct (lineText (document (editor s)) (line (end_ (contentRange s))))
      as [et|] eqn:He.
    + now rewrite (lineAt_Ok _ _ He).
    + now rewrite (lineAt_Throw _ _ He).
  - now rewrite (lineAt_Throw _ _ Hn).
Qed.

Lemma isInDelimitedList_qualifies (s : TypedSelection) (st et : Js.JsString)
  (endLine : TextLine) :
  lineAt (document (editor s)) (end_ (contentRange s)) = Ok endLine ->
  text endLine = et ->
  TokenStage.isInDelimitedList
    (leadingScan st (start (contentRange s)))
    (trailingScan et (end_ (contentRange s)))
    (start (contentRange s)) (end_ (contentRange s)) endLine
  = qualifies st et (start (contentRange s)) (end_ (contentRange s)).
Proof.
  intros Hl <-. unfold TokenStage.isInDelimitedList, qualifies.
  rewrite leadingScan_notNull, trailingScan_notNull.
  unfold lineAt in Hl.
  destruct (nth_error _ _); [|discriminate Hl].
  now injection Hl as <-.
Qed.

(** The stage returns only when both lines are in the document. *)
Lemma run_Ok_lines {H S D : Type} (context : ProcessedTargetsContext H S)
  (stage : D) (s out : TypedSelection) :
  TokenStage.run context stage s = Ok out -> exists st et, linesOf s st et.
Proof.
  intro Hr. unfold linesOf.
  destruct (lineText (document (editor s)) (line (start (contentRange s))))
    as [st|] eqn:Hs.
  - destruct (lineText (document (editor s)) (line (end_ (contentRange s))))
      as [et|] eqn:He.
    + now exists st, et.
    + rewrite (run_Throw context stage s (or_intror He)) in Hr. discriminate Hr.
  - rewrite (run_Throw context stage s (or_introl Hs)) in Hr. discriminate Hr.
Qed.

(** The start of a content range that lies in the document is a column of
    its line. *)
Lemma inDocument_start_column (s : TypedSelection) (st et : Js.JsString) :
  linesOf s st et ->
  inDocument (document (editor s)) (start (contentRange s)) ->
  character (start (contentRange s)) <= length st.
Proof.
  intros [Hs _] (t & Ht & Hc). rewrite Hs in Ht. now injection Ht as <-.
Qed.

Lemma qualifies_conditions (st et : Js.JsString) (p q : Position) :
  qualifies st et p q = true
  <-> (precededByWhiteSpace st (character p) = true
       \/ followedByWhiteSpace et (character q) = true)
      /\ (precededByWhiteSpace st (character p) = true \/ character p = 0)
      /\ (followedByWhiteSpace et (character q) = true
          \/ q = mkPosition (line q) (length et)).
Proof.
  unfold qualifies. cbv zeta.
  rewrite !andb_true_iff, !orb_true_iff, Nat.eqb_eq, isEqual_eq. tauto.
Qed.

Lemma notNull_true {A : Type} (o : option A) :
  Js.notNull o = true <-> o <> None.
Proof. destruct o; simpl; split; congruence. Qed.

(** The output of the stage when both lines are in the document. *)
Lemma run_eq {H S D : Type} (context : ProcessedTargetsContext H S)
  (stage : D) (s : TypedSelection) (st et : Js.JsString) :
  linesOf s st et ->
  TokenStage.run context stage s
  = Ok (let q := qualifies st et (start (contentRange s))
                   (end_ (contentRange s)) in
        mkTypedSelection (editor s) (isReversed s) (isRawSelection s)
          (Some (Js.lit " ")) (contentRange s) (interiorRange s)
          (if q then leadingScan st (start (contentRange s)) else None)
          (if q then trailingScan et (end_ (contentRange s)) else None)
          (boundary s)).
Proof.
  intro Hl. destruct (getDelimiterRanges_eq Hl) as (el & Hel & Het & Hg).
  unfold TokenStage.run. rewrite Hg. cbv zeta.
  rewrite (isInDelimitedList_qualifies s st Hel Het).
  reflexivity.
Qed.

End ScanFacts.

(** ** The Position stage *)

Section PositionStageFacts.
Import Vscode Types Spec Examples.
Context {H S : Type}.
Variable context : ProcessedTargetsContext H S.

Lemma range_defined_point (p : Position) :
  PositionStage.range_defined p = pointRange p.
Proof. unfold PositionStage.range_defined. simpl. apply new_Range_point. Qed.

Lemma range_point (o : option Position) :
  PositionStage.range o = option_map pointRange o.
Proof. destruct o as [p|]; simpl; [now rewrite new_Range_point|reflexivity]. Qed.

Lemma run_beforeOrStart (stage : PositionStage.PositionModifier)
  (s : TypedSelection) :
  beforeOrStart (PositionStage.position stage) ->
  PositionStage.run context stage s
  = set_interiorRange
      (set_contentRange s (pointRange (start (contentRange s))))
      (option_map (fun r => pointRange (start r)) (interiorRange s)).
Proof.
  unfold PositionStage.run. intros [-> | ->]; simpl;
    rewrite range_defined_point, range_point;
    now destruct (interiorRange s).
Qed.

Lemma run_afterOrEnd (stage : PositionStage.PositionModifier)
  (s : TypedSelection) :
  afterOrEnd (PositionStage.position stage) ->
  PositionStage.run context stage s
  = set_interiorRange
      (set_contentRange s (pointRange (end_ (contentRange s))))
      (option_map (fun r => pointRange (end_ r)) (interiorRange s)).
Proof.
  unfold PositionStage.run. intros [-> | ->]; simpl;
    rewrite range_defined_point, range_point;
    now destruct (interiorRange s).
Qed.

Lemma run_unrecognized (stage : PositionStage.PositionModifier)
  (s : TypedSelection) :
  ~ recognized (PositionStage.position stage) ->
  PositionStage.run context stage s = s.
Proof.
  intro Hn. unfold PositionStage.run.
  destruct (Js.eqb _ (Js.lit "before")) eqn:E1.
  { exfalso. apply Hn. left. left. now apply eqb_eq. }
  destruct (Js.eqb _ (Js.lit "start")) eqn:E2.
  { exfalso. apply Hn. left. right. now apply eqb_eq. }
  destruct (Js.eqb _ (Js.lit "after")) eqn:E3.
  { exfalso. apply Hn. right. left. now apply eqb_eq. }
  destruct (Js.eqb _ (Js.lit "end")) eqn:E4.
  { exfalso. apply Hn. right. right. now apply eqb_eq. }
  reflexivity.
Qed.

End PositionStageFacts.

(** * The claims *)

(** ** Position stage *)

Section PositionStageClaims.
Import Vscode Types Spec Examples.

(** C4, as the code has it: a [position] outside before, start, after and
    end matches no case of the [switch]; the stage reports no error and
    returns the input selection with every field unchanged. *)
Theorem position_unrecognized_returns_input {H S : Type}
  (context : ProcessedTargetsContext H S)
  (stage : PositionStage.PositionModifier) (s : TypedSelection) :
  ~ recognized (PositionStage.position stage) ->
  PositionStage.run context stage s = s.
Proof. apply run_unrecognized. Qed.

Lemma middle_unrecognized : ~ recognized (Js.lit "middle").
Proof. intros [[E|E]|[E|E]]; discriminate E. Qed.

Lemma position_unrecognized_returns_input_witness :
  PositionStage.run exContext (exModifier "middle") exWide = exWide.
Proof.
  apply (position_unrecognized_returns_input exContext
           (exModifier "middle") exWide).
  exact middle_unrecognized.
Defined.

(** C4 as stated fails: on the position [middle] the stage returns its
    input unchanged, where the claim asks for a reported error. *)
Lemma position_unrecognized_no_error :
  ~ recognized (PositionStage.position (exModifier "middle"))
  /\ PositionStage.run exContext (exModifier "middle") exWide = exWide.
Proof. split; [exact middle_unrecognized|reflexivity]. Qed.

(** C5: for before and start the content range of the output is the
    zero-width range at the start of the input's content range, for after
    and end the one at its end; so on each of the four values the output's
    content range starts and ends at the same position, however many lines
    the input spans. *)
Theorem position_content_zero_width {H S : Type}
  (context : ProcessedTargetsContext H S)
  (stage : PositionStage.PositionModifier) (s : TypedSelection) :
  let out := PositionStage.run context stage s in
  (beforeOrStart (PositionStage.position stage) ->
   start (contentRange out) = start (contentRange s)
   /\ end_ (contentRange out) = start (contentRange s))
  /\ (afterOrEnd (PositionStage.position stage) ->
      start (contentRange out) = end_ (contentRange s)
      /\ end_ (contentRange out) = end_ (contentRange s))
  /\ (recognized (PositionStage.position stage) ->
      start (contentRange out) = end_ (contentRange out)
      /\ isEmpty (contentRange out) = true).
Proof.
  cbv zeta. split; [|split].
  - intro Hp. now rewrite (run_beforeOrStart context _ s Hp).
  - intro Hp. now rewrite (run_afterOrEnd context _ s Hp).
  - intros [Hp|Hp];
      [rewrite (run_beforeOrStart context _ s Hp)
      |rewrite (run_afterOrEnd context _ s Hp)];
      (split; [reflexivity|]); unfold isEmpty; now apply isEqual_eq.
Qed.

Lemma position_content_zero_width_witness :
  (start (contentRange
            (PositionStage.run exContext (exModifier "before") exWide))
   = mkPosition 0 4
   /\ end_ (contentRange
              (PositionStage.run exContext (exModifier "before") exWide))
      = mkPosition 0 4)
  /\ (start (contentRange
               (PositionStage.run exContext (exModifier "end") exWide))
      = mkPosition 2 3
      /\ end_ (contentRange
                 (PositionStage.run exContext (exModifier "end") exWide))
         = mkPosition 2 3).
Proof.
  pose proof (position_content_zero_width exContext
                (exModifier "before") exWide) as Hb.
  pose proof (position_content_zero_width exContext
                (exModifier "end") exWide) as He.
  cbv zeta in Hb, He.
  destruct Hb as [Hb _]. destruct He as [_ [He _]].
  exact (conj (Hb (or_introl eq_refl)) (He (or_intror eq_refl))).
Defined.

(** C6: on each of the four values of [position], running the stage on
    its own output gives that output again. *)
Theorem position_idempotent {H S : Type}
  (context : ProcessedTargetsContext H S)
  (stage : PositionStage.PositionModifier) (s : TypedSelection) :
  recognized (PositionStage.position stage) ->
  PositionStage.run context stage (PositionStage.run context stage s)
  = PositionStage.run context stage s.
Proof.
  intros [Hp|Hp].
  - rewrite !(run_beforeOrStart context _ _ Hp).
    unfold set_interiorRange, set_contentRange. simpl.
    now destruct (interiorRange s).
  - rewrite !(run_afterOrEnd context _ _ Hp).
    unfold set_interiorRange, set_contentRange. simpl.
    now destruct (interiorRange s).
Qed.

Lemma position_idempotent_witness :
  PositionStage.run exContext (exModifier "after")
    (PositionStage.run exContext (exModifier "after") exWide)
  = PositionStage.run exContext (exModifier "after") exWide.
Proof.
  apply (position_idempotent exContext (exModifier "after") exWide).
  right. left. reflexivity.
Defined.

(** C7: the output has the delimiter, the two delimiter ranges, the
    boundary, the two flags and the editor of the input; without an
    interior range in the input there is none in the output, and an
    interior range of the input becomes the zero-width range at its start
    for before and start, at its end for after and end. *)
Theorem position_frame {H S : Type}
  (context : ProcessedTargetsContext H S)
  (stage : PositionStage.PositionModifier) (s : TypedSelection) :
  let out := PositionStage.run context stage s in
  delimiter out = delimiter s
  /\ leadingDelimiterRange out = leadingDelimiterRange s
  /\ trailingDelimiterRange out = trailingDelimiterRange s
  /\ boundary out = boundary s
  /\ isRawSelection out = isRawSelection s
  /\ isReversed out = isReversed s
  /\ editor out = editor s
  /\ (interiorRange s = None -> interiorRange out = None)
  /\ (forall r, interiorRange s = Some r ->
        (beforeOrStart (PositionStage.position stage) ->
         interiorRange out = Some (pointRange (start r)))
        /\ (afterOrEnd (PositionStage.position stage) ->
            interiorRange out = Some (pointRange (end_ r)))).
Proof.
  cbv zeta.
  assert (Hcases : beforeOrStart (PositionStage.position stage)
                   \/ afterOrEnd (PositionStage.position stage)
                   \/ ~ recognized (PositionStage.position stage)).
  { unfold recognized, beforeOrStart, afterOrEnd.
    destruct (list_eq_dec N.eq_dec (PositionStage.position stage)
                (Js.lit "before")); [tauto|].
    destruct (list_eq_dec N.eq_dec (PositionStage.position stage)
                (Js.lit "start")); [tauto|].
    destruct (list_eq_dec N.eq_dec (PositionStage.position stage)
                (Js.lit "after")); [tauto|].
    destruct (list_eq_dec N.eq_dec (PositionStage.position stage)
                (Js.lit "end")); tauto. }
  destruct Hcases as [Hp|[Hp|Hp]].
  - rewrite (run_beforeOrStart context _ s Hp). simpl.
    repeat (split; [reflexivity|]). split.
    + now intros ->.
    + intros r ->. split; [reflexivity|].
      intro Hq. exfalso. destruct Hp as [Hp|Hp], Hq as [Hq|Hq];
        rewrite Hp in Hq; discriminate Hq.
  - rewrite (run_afterOrEnd context _ s Hp). simpl.
    repeat (split; [reflexivity|]). split.
    + now intros ->.
    + intros r ->. split; [|reflexivity].
      intro Hq. exfalso. destruct Hp as [Hp|Hp], Hq as [Hq|Hq];
        rewrite Hp in Hq; discriminate Hq.
  - rewrite (run_unrecognized context _ s Hp).
    repeat (split; [reflexivity|]). split; [trivial|].
    intros r _. split; intro Hq; exfalso; apply Hp;
      [now left|now right].
Qed.

Lemma position_frame_witness :
  delimiter (PositionStage.run exContext (exModifier "start") exWide)
  = Some (Js.lit ",")
  /\ interiorRange (PositionStage.run exContext (exModifier "start") exWide)
     = Some (pointRange (mkPosition 0 5))
  /\ interiorRange (PositionStage.run exContext (exModifier "after") exWide)
     = Some (pointRange (mkPosition 2 1))
  /\ interiorRange (PositionStage.run exContext (exModifier "after") exBar)
     = None.
Proof.
  pose proof (position_frame exContext (exModifier "start") exWide) as Hs.
  pose proof (position_frame exContext (exModifier "after") exWide) as Ha.
  pose proof (position_frame exContext (exModifier "after") exBar) as Hn.
  cbv zeta in Hs, Ha, Hn.
  destruct Hs as (Hd & _ & _ & _ & _ & _ & _ & _ & Hs).
  destruct Ha as (_ & _ & _ & _ & _ & _ & _ & _ & Ha).
  destruct Hn as (_ & _ & _ & _ & _ & _ & _ & Hn & _).
  destruct (Hs _ eq_refl) as [Hs1 _].
  destruct (Ha _ eq_refl) as [_ Ha2].
  split; [exact Hd|]. split; [exact (Hs1 (or_intror eq_refl))|].
  split; [exact (Ha2 (or_introl eq_refl))|exact (Hn eq_refl)].
Defined.

End PositionStageClaims.

(** ** Token stage *)

Section TokenStageClaims.
Import Vscode Types Spec Examples.

(** C1: with [foundLeading] and [foundTrailing] saying that there is
    whitespace just before the start, respectively just after the end, of
    the content range on its line, the flag [isInDelimitedList] is true
    exactly when (1) one of the two holds, (2) [foundLeading] holds or the
    start is at column 0, and (3) [foundTrailing] holds or the end is the
    end-of-line position of its line. When the flag is true the output
    carries the two scanned ranges, at least one of them present; when it
    is false both delimiter ranges of the output are absent. *)
Theorem token_qualification {H S D : Type}
  (context : ProcessedTargetsContext H S) (stage : D) (s : TypedSelection)
  (st et : Js.JsString) :
  linesOf s st et ->
  let start' := start (contentRange s) in
  let end' := end_ (contentRange s) in
  let foundLeading := precededByWhiteSpace st (character start') = true in
  let foundTrailing := followedByWhiteSpace et (character end') = true in
  let conditions :=
    (foundLeading \/ foundTrailing)
    /\ (foundLeading \/ character start' = 0)
    /\ (foundTrailing \/ end' = mkPosition (line end') (length et)) in
  exists out endLine,
    TokenStage.run context stage s = Ok out
    /\ lineAt (document (editor s)) end' = Ok endLine
    /\ (TokenStage.isInDelimitedList (leadingScan st start')
          (trailingScan et end') start' end' endLine = true <-> conditions)
    /\ (conditions ->
        leadingDelimiterRange out = leadingScan st start'
        /\ trailingDelimiterRange out = trailingScan et end'
        /\ (leadingDelimiterRange out <> None
            \/ trailingDelimiterRange out <> None))
    /\ (~ conditions ->
        leadingDelimiterRange out = None
        /\ trailingDelimiterRange out = None).
Proof.
  intro Hl. cbv zeta.
  destruct (getDelimiterRanges_eq Hl) as (el & Hel & Het & _).
  rewrite (run_eq context stage Hl). cbv zeta.
  eexists. exists el. split; [reflexivity|]. split; [exact Hel|].
  rewrite (isInDelimitedList_qualifies s st Hel Het).
  pose proof (qualifies_conditions st et (start (contentRange s))
                (end_ (contentRange s))) as Hq.
  split; [exact Hq|]. split.
  - intro Hc. apply Hq in Hc.
    cbn [leadingDelimiterRange trailingDelimiterRange].
    rewrite Hc. split; [reflexivity|]. split; [reflexivity|].
    apply Hq in Hc. destruct Hc as [[Hf|Hf] _]; [left|right].
    + rewrite <- leadingScan_notNull in Hf. now apply notNull_true.
    + rewrite <- trailingScan_notNull in Hf. now apply notNull_true.
  - intro Hc. cbn [leadingDelimiterRange trailingDelimiterRange].
    destruct (qualifies st et _ _); [|now split].
    exfalso. apply Hc. now apply Hq.
Qed.

Lemma token_qualification_witness :
  exists out,
    TokenStage.run exContext tt exBar = Ok out
    /\ leadingDelimiterRange out
       = Some (mkRange (mkPosition 0 3) (mkPosition 0 4))
    /\ trailingDelimiterRange out
       = Some (mkRange (mkPosition 0 7) (mkPosition 0 8)).
Proof.
  destruct (token_qualification exContext tt (s := exBar)
              (conj eq_refl eq_refl))
    as (out & el & Hrun & _ & _ & Hq & _).
  exists out. split; [exact Hrun|].
  destruct Hq as (Hl & Ht & _).
  - split; [left; reflexivity|]. split; left; reflexivity.
  - split; [exact Hl|exact Ht].
Defined.

(** C2: the output has both delimiter ranges absent, or each side has its
    range or lies at a line boundary (the start at column 0, the end at the
    end-of-line position); so when exactly one range is present, the other
    side is at its line boundary. *)
Theorem token_both_or_neither {H S D : Type}
  (context : ProcessedTargetsContext H S) (stage : D) (s : TypedSelection)
  (st et : Js.JsString) :
  linesOf s st et ->
  let start' := start (contentRange s) in
  let end' := end_ (contentRange s) in
  exists out,
    TokenStage.run context stage s = Ok out
    /\ ((leadingDelimiterRange out = None
         /\ trailingDelimiterRange out = None)
        \/ ((leadingDelimiterRange out <> None \/ character start' = 0)
            /\ (trailingDelimiterRange out <> None
                \/ end' = mkPosition (line end') (length et))))
    /\ (leadingDelimiterRange out <> None ->
        trailingDelimiterRange out = None ->
        end' = mkPosition (line end') (length et))
    /\ (trailingDelimiterRange out <> None ->
        leadingDelimiterRange out = None ->
        character start' = 0).
Proof.
  intro Hl. cbv zeta. rewrite (run_eq context stage Hl). cbv zeta.
  eexists. split; [reflexivity|].
  cbn [leadingDelimiterRange trailingDelimiterRange].
  destruct (qualifies st et _ _) eqn:Eq.
  - apply qualifies_conditions in Eq. destruct Eq as (_ & Hs & He).
    rewrite <- leadingScan_notNull, notNull_true in Hs.
    rewrite <- trailingScan_notNull, notNull_true in He.
    split; [right; split; assumption|]. split.
    + intros _ Hn. destruct He as [He|He]; [contradiction|exact He].
    + intros _ Hn. destruct Hs as [Hs|Hs]; [contradiction|exact Hs].
  - split; [left; split; reflexivity|]. split; intro Hn; now exfalso.
Qed.

Lemma token_both_or_neither_witness :
  exists out,
    TokenStage.run exContext tt (exSelection 1 0 1 3) = Ok out
    /\ (trailingDelimiterRange out <> None ->
        leadingDelimiterRange out = None ->
        character (start (contentRange (exSelection 1 0 1 3))) = 0).
Proof.
  destruct (token_both_or_neither exContext tt (s := exSelection 1 0 1 3)
              (conj eq_refl eq_refl))
    as (out & Hrun & _ & _ & Ht).
  exists out. split; [exact Hrun|exact Ht].
Defined.

(** C3, as the code has it: a leading delimiter range of the output ends
    at the start of the content range and, when that start is a position of
    the document (its column is at most the length of its line), covers
    exactly the maximal run of whitespace just before it on that line; a
    trailing delimiter range starts at the end of the content range and
    covers exactly the maximal run of whitespace just after it on its
    line. *)
Theorem token_delimiter_runs {H S D : Type}
  (context : ProcessedTargetsContext H S) (stage : D) (s : TypedSelection)
  (st et : Js.JsString) :
  linesOf s st et ->
  let start' := start (contentRange s) in
  let end' := end_ (contentRange s) in
  exists out,
    TokenStage.run context stage s = Ok out
    /\ (forall r, leadingDelimiterRange out = Some r ->
          end_ r = start'
          /\ (inDocument (document (editor s)) start' ->
              maximalWhiteSpaceBefore st start' r))
    /\ (forall r, trailingDelimiterRange out = Some r ->
          start r = end' /\ maximalWhiteSpaceAfter et end' r).
Proof.
  intro Hl. cbv zeta. rewrite (run_eq context stage Hl). cbv zeta.
  eexists. split; [reflexivity|].
  cbn [leadingDelimiterRange trailingDelimiterRange].
  destruct (qualifies st et _ _); [|split; intros r Hr; discriminate Hr].
  split; intros r Hr.
  - apply leadingScan_Some in Hr.
    destruct Hr as (n & Hpos & Hcol & Hlen & -> & Hin).
    split; [reflexivity|]. intro Hb.
    apply (inDocument_start_column Hl) in Hb. destruct (Hin Hb) as [Hws Hmax].
    unfold maximalWhiteSpaceBefore. simpl.
    repeat split; try assumption; try lia.
  - apply trailingScan_Some in Hr.
    destruct Hr as (n & Hpos & Hlen & -> & Hws & Hmax).
    split; [reflexivity|].
    unfold maximalWhiteSpaceAfter. simpl.
    repeat split; try assumption; try lia.
Qed.

Lemma token_delimiter_runs_witness :
  exists out,
    TokenStage.run exContext tt exBar = Ok out
    /\ (forall r, leadingDelimiterRange out = Some r ->
          maximalWhiteSpaceBefore (Js.lit "foo bar baz") (mkPosition 0 4) r)
    /\ (forall r, trailingDelimiterRange out = Some r ->
          maximalWhiteSpaceAfter (Js.lit "foo bar baz") (mkPosition 0 7) r).
Proof.
  destruct (token_delimiter_runs exContext tt (s := exBar)
              (conj eq_refl eq_refl))
    as (out & Hrun & Hl & Ht).
  exists out. split; [exact Hrun|]. split; intros r Hr.
  - apply (Hl r Hr). exists (Js.lit "foo bar baz").
    split; [reflexivity|simpl; lia].
  - apply (Ht r Hr).
Defined.

(** C3 as stated fails: for a content range that starts at column 10 of
    the line [ab  ], of length 4, and ends at the end of the next line, the
    output has the leading delimiter range from column 8 to column 10, which
    covers no whitespace of the line. *)
Lemma token_leading_run_past_line_end :
  exists out r,
    TokenStage.run exContext tt (exSelection 4 10 5 3) = Ok out
    /\ leadingDelimiterRange out = Some r
    /\ r = mkRange (mkPosition 4 8) (mkPosition 4 10)
    /\ lineText exDocument 4 = Some (Js.lit "ab  ")
    /\ ~ maximalWhiteSpaceBefore (Js.lit "ab  ")
           (start (contentRange (exSelection 4 10 5 3))) r.
Proof.
  eexists. eexists. split; [reflexivity|]. split; [reflexivity|].
  split; [reflexivity|]. split; [reflexivity|].
  intros (_ & _ & _ & Hws & _).
  destruct (Hws 8) as (c & Hc & _); [simpl; lia|discriminate Hc].
Qed.

(** C8: the output has a single space as its delimiter, whatever the
    delimiter of the input, and the editor, content range, interior range,
    boundary and the two flags of the input. *)
Theorem token_frame {H S D : Type}
  (context : ProcessedTargetsContext H S) (stage : D) (s : TypedSelection)
  (st et : Js.JsString) :
  linesOf s st et ->
  exists out,
    TokenStage.run context stage s = Ok out
    /\ delimiter out = Some (Js.lit " ")
    /\ editor out = editor s
    /\ contentRange out = contentRange s
    /\ interiorRange out = interiorRange s
    /\ boundary out = boundary s
    /\ isReversed out = isReversed s
    /\ isRawSelection out = isRawSelection s.
Proof.
  intro Hl. rewrite (run_eq context stage Hl). cbv zeta.
  eexists. split; [reflexivity|]. simpl. auto 10.
Qed.

Lemma token_frame_witness :
  exists out,
    TokenStage.run exContext tt exWide = Ok out
    /\ delimiter exWide = Some (Js.lit ",")
    /\ delimiter out = Some (Js.lit " ")
    /\ interiorRange out = Some (mkRange (mkPosition 0 5) (mkPosition 2 1))
    /\ isReversed out = Some true.
Proof.
  destruct (token_frame exContext tt (s := exWide) (conj eq_refl eq_refl))
    as (out & Hrun & Hd & _ & _ & Hi & _ & Hr & _).
  exists out. split; [exact Hrun|]. split; [reflexivity|].
  split; [exact Hd|]. split; [exact Hi|exact Hr].
Defined.

(** C10, as the code has it: a leading delimiter range of the output
    starts and ends on the line of the start of the content range, ends at
    that start, is not empty and is no wider than the line; so it stays
    within the columns of the line exactly when the start of the content
    range is a position of the document. A trailing delimiter range lies on
    the line of the end of the content range within its columns. Each of
    them has at most one position in common with the content range, the
    start, respectively the end, of it. *)
Theorem token_delimiters_within_line {H S D : Type}
  (context : ProcessedTargetsContext H S) (stage : D) (s : TypedSelection)
  (st et : Js.JsString) :
  linesOf s st et ->
  let start' := start (contentRange s) in
  let end' := end_ (contentRange s) in
  exists out,
    TokenStage.run context stage s = Ok out
    /\ (forall r, leadingDelimiterRange out = Some r ->
          line (start r) = line start' /\ line (end_ r) = line start'
          /\ (inDocument (document (editor s)) start' ->
              withinLine st (line start') r)
          /\ meetOnlyAt r (contentRange s) start'
          /\ end_ r = start'
          /\ character (start r) < character (end_ r)
          /\ character (end_ r) - character (start r) <= length st
          /\ (withinLine st (line start') r ->
              inDocument (document (editor s)) start'))
    /\ (forall r, trailingDelimiterRange out = Some r ->
          withinLine et (line end') r
          /\ meetOnlyAt r (contentRange s) end').
Proof.
  intro Hl. cbv zeta. rewrite (run_eq context stage Hl). cbv zeta.
  eexists. split; [reflexivity|].
  cbn [leadingDelimiterRange trailingDelimiterRange contentRange].
  destruct (qualifies st et _ _); [|split; intros r Hr; discriminate Hr].
  split; intros r Hr.
  - apply leadingScan_Some in Hr.
    destruct Hr as (n & Hpos & Hcol & Hlen & -> & _).
    unfold withinLine, meetOnlyAt. simpl.
    split; [reflexivity|]. split; [reflexivity|].
    split; [intro Hb; apply (inDocument_start_column Hl) in Hb;
            repeat split; lia|].
    split.
    { intros q Hq Hc. unfold contains in Hq, Hc. simpl in Hq.
      apply andb_prop in Hq. apply andb_prop in Hc.
      apply isBeforeOrEqual_antisym; tauto. }
    split; [reflexivity|]. split; [lia|]. split; [lia|].
    intros (_ & _ & _ & Hb). exists st. split; [apply Hl|exact Hb].
  - apply trailingScan_Some in Hr.
    destruct Hr as (n & Hpos & Hlen & -> & _).
    unfold withinLine, meetOnlyAt. simpl.
    split; [repeat split; lia|].
    intros q Hq Hc. unfold contains in Hq, Hc. simpl in Hq.
    apply andb_prop in Hq. apply andb_prop in Hc.
    apply isBeforeOrEqual_antisym; tauto.
Qed.

Lemma token_delimiters_within_line_witness :
  exists out,
    TokenStage.run exContext tt exBar = Ok out
    /\ (forall r, leadingDelimiterRange out = Some r ->
          withinLine (Js.lit "foo bar baz") 0 r
          /\ meetOnlyAt r (contentRange exBar) (mkPosition 0 4))
    /\ (forall r, trailingDelimiterRange out = Some r ->
          withinLine (Js.lit "foo bar baz") 0 r
          /\ meetOnlyAt r (contentRange exBar) (mkPosition 0 7)).
Proof.
  destruct (token_delimiters_within_line exContext tt (s := exBar)
              (conj eq_refl eq_refl))
    as (out & Hrun & Hl & Ht).
  exists out. split; [exact Hrun|]. split; intros r Hr.
  - destruct (Hl r Hr) as (_ & _ & Hw & Hm & _).
    split; [|exact Hm].
    apply Hw. exists (Js.lit "foo bar baz"). split; [reflexivity|simpl; lia].
  - apply (Ht r Hr).
Defined.

(** C10 as stated fails: for a content range that starts at column 10 of
    the line [ab  ], of length 4, and ends at the end of the next line, the
    leading delimiter range of the output ends at column 10, past the last
    column of its line. *)
Lemma token_leading_range_past_line_end :
  exists out r,
    TokenStage.run exContext tt (exSelection 4 10 5 3) = Ok out
    /\ leadingDelimiterRange out = Some r
    /\ lineText exDocument (line (start r)) = Some (Js.lit "ab  ")
    /\ length (Js.lit "ab  ") < character (end_ r)
    /\ ~ withinLine (Js.lit "ab  ") 4 r.
Proof.
  eexists. eexists. split; [reflexivity|]. split; [reflexivity|].
  split; [reflexivity|]. split; [simpl; lia|].
  intros (_ & _ & _ & Hb). simpl in Hb. lia.
Qed.

End TokenStageClaims.

(** ** Both stages *)

Section ContextClaims.
Import Vscode Types.

(** C9: the output of either stage is a function of the descriptor and
    the selection (with its document) alone: two runs with any two
    contexts, of any two kinds of hat map and syntax node, agree. *)
Theorem stages_ignore_context {H1 S1 H2 S2 D : Type}
  (context1 : ProcessedTargetsContext H1 S1)
  (context2 : ProcessedTargetsContext H2 S2)
  (positionStage : PositionStage.PositionModifier) (tokenStage : D)
  (s : TypedSelection) :
  PositionStage.run context1 positionStage s
  = PositionStage.run context2 positionStage s
  /\ TokenStage.run context1 tokenStage s
     = TokenStage.run context2 tokenStage s.
Proof. split; reflexivity. Qed.

End ContextClaims.

(** ** Scenarios of the specification *)

Section Scenarios.
Import Vscode Types Examples.

(** [bar] in [foo bar baz]: both delimiter ranges. *)
Example scenario_foo_bar_baz :
  TokenStage.getDelimiterRanges (exSelection 0 4 0 7)
  = Ok (TokenStage.mkDelimiterRanges
          (Some (mkRange (mkPosition 0 3) (mkPosition 0 4)))
          (Some (mkRange (mkPosition 0 7) (mkPosition 0 8)))).
Proof. reflexivity. Qed.

(** [bar] in [bar baz]: column 0, a trailing range only. *)
Example scenario_bar_baz :
  TokenStage.getDelimiterRanges (exSelection 1 0 1 3)
  = Ok (TokenStage.mkDelimiterRanges None
          (Some (mkRange (mkPosition 1 3) (mkPosition 1 4)))).
Proof. reflexivity. Qed.

(** [foo] in [foobar]: no delimiter range. *)
Example scenario_foobar :
  TokenStage.getDelimiterRanges (exSelection 2 0 2 3)
  = Ok (TokenStage.mkDelimiterRanges None None).
Proof. reflexivity. Qed.

(** [foo] in [a foobar]: the leading scan matches, the end is neither
    followed by whitespace nor at the end of the line; no delimiter
    range. *)
Example scenario_a_foobar :
  Spec.leadingScan (Js.lit "a foobar") (mkPosition 3 2)
  = Some (mkRange (mkPosition 3 1) (mkPosition 3 2))
  /\ TokenStage.getDelimiterRanges (exSelection 3 2 3 5)
     = Ok (TokenStage.mkDelimiterRanges None None).
Proof. split; reflexivity. Qed.

(** A content range over several lines, narrowed to its start. *)
Example scenario_before_multiline :
  contentRange (PositionStage.run exContext (exModifier "before") exWide)
  = mkRange (mkPosition 0 4) (mkPosition 0 4).
Proof. reflexivity. Qed.

(** A line that is not in the document. *)
Example scenario_missing_line :
  TokenStage.run exContext tt (exSelection 0 4 9 0) = Throw IllegalLine.
Proof. reflexivity. Qed.

(** A start column past the end of its line (the content range is not a
    range of the document): the whole line is scanned, and the leading
    range is counted back from the start column. *)
Example scenario_column_past_line_end :
  TokenStage.getDelimiterRanges (exSelection 4 10 5 3)
  = Ok (TokenStage.mkDelimiterRanges
          (Some (mkRange (mkPosition 4 8) (mkPosition 4 10))) None).
Proof. reflexivity. Qed.

End Scenarios.

(** * Further properties of the two stages *)

Section TokenStageProperties.
Import Vscode Types Spec Examples MoreExamples.

Lemma lineText_Some_iff (d : TextDocument) (l : nat) :
  (exists t, lineText d l = Some t) <-> l < length (lines d).
Proof.
  unfold lineText. rewrite <- nth_error_Some.
  destruct (nth_error (lines d) l) as [t|]; split; intro Hx.
  - discriminate.
  - now exists t.
  - destruct Hx as [t Ht]. discriminate Ht.
  - now contradiction Hx.
Qed.

(** X1: the Token stage returns exactly when the lines of both ends of the
    content range are lines of the document; otherwise it throws, and the
    only exception it ever throws is the one of [lineAt]: no range
    constructor refuses its arguments. *)
Theorem token_run_exceptions {H S D : Type}
  (context : ProcessedTargetsContext H S) (stage : D) (s : TypedSelection) :
  ((exists out, TokenStage.run context stage s = Ok out)
   <-> line (start (contentRange s)) < length (lines (document (editor s)))
       /\ line (end_ (contentRange s)) < length (lines (document (editor s))))
  /\ (forall e, TokenStage.run context stage s = Throw e -> e = IllegalLine).
Proof.
  split; [split|].
  - intros [out Hr]. destruct (run_Ok_lines _ _ _ Hr) as (st & et & Hs & He).
    split; apply lineText_Some_iff; eauto.
  - intros [Hs He]. apply lineText_Some_iff in Hs, He.
    destruct Hs as [st Hs], He as [et He].
    rewrite (run_eq context stage (conj Hs He)). eauto.
  - intros e Hr.
    destruct (lineText (document (editor s)) (line (start (contentRange s))))
      as [st|] eqn:Hs.
    + destruct (lineText (document (editor s)) (line (end_ (contentRange s))))
        as [et|] eqn:He.
      * rewrite (run_eq context stage (conj Hs He)) in Hr. discriminate Hr.
      * rewrite (run_Throw context stage s (or_intror He)) in Hr.
        now injection Hr.
    + rewrite (run_Throw context stage s (or_introl Hs)) in Hr.
      now injection Hr.
Qed.

Lemma token_run_exceptions_witness :
  exists out, TokenStage.run exContext tt exBar = Ok out.
Proof.
  destruct (token_run_exceptions exContext tt exBar) as [[_ Hok] _].
  apply Hok. simpl. lia.
Defined.

(** X2: the Token stage is idempotent: run on one of its outputs, with any
    context and descriptor, it returns that output. *)
Theorem token_run_idempotent {H S D H' S' D' : Type}
  (context : ProcessedTargetsContext H S) (stage : D)
  (context' : ProcessedTargetsContext H' S') (stage' : D')
  (s out : TypedSelection) :
  TokenStage.run context stage s = Ok out ->
  TokenStage.run context' stage' out = Ok out.
Proof.
  intro Hr. destruct (run_Ok_lines _ _ _ Hr) as (st & et & Hl).
  rewrite (run_eq context stage Hl) in Hr. injection Hr as <-.
  now rewrite (run_eq context' stage' (s := mkTypedSelection _ _ _ _ _ _ _ _ _)
                 (st := st) (et := et) Hl).
Qed.

Lemma token_run_idempotent_witness :
  TokenStage.run exContext tt exBarOut = Ok exBarOut.
Proof.
  apply (token_run_idempotent exContext tt exContext tt exBar
           (out := exBarOut)).
  reflexivity.
Defined.

(** X3: the output of the Token stage does not depend on the delimiter and
    the delimiter ranges the input came with: inputs that agree on the other
    fields have the same result. *)
Theorem token_run_overwrites_delimiters {H S D : Type}
  (context : ProcessedTargetsContext H S) (stage : D) (s s' : TypedSelection) :
  editor s = editor s' -> isReversed s = isReversed s' ->
  isRawSelection s = isRawSelection s' -> contentRange s = contentRange s' ->
  interiorRange s = interiorRange s' -> boundary s = boundary s' ->
  TokenStage.run context stage s = TokenStage.run context stage s'.
Proof.
  destruct s, s'. simpl. intros -> -> -> -> -> ->. reflexivity.
Qed.

Lemma token_run_overwrites_delimiters_witness :
  TokenStage.run exContext tt
    (set_leadingDelimiterRange (set_delimiter exBar (Some (Js.lit ","))) None)
  = TokenStage.run exContext tt exBar.
Proof.
  apply (token_run_overwrites_delimiters exContext tt
           (set_leadingDelimiterRange
              (set_delimiter exBar (Some (Js.lit ","))) None)
           exBar); reflexivity.
Defined.

(** X4: [getDelimiterRanges] reads the document only on the line of the
    start and the line of the end of the content range: two selections with
    the same content range, in documents that agree on these two lines, get
    the same result (the same ranges, or the same exception). *)
Theorem token_scan_reads_two_lines (s s' : TypedSelection) :
  contentRange s = contentRange s' ->
  lineText (document (editor s)) (line (start (contentRange s)))
  = lineText (document (editor s')) (line (start (contentRange s))) ->
  lineText (document (editor s)) (line (end_ (contentRange s)))
  = lineText (document (editor s')) (line (end_ (contentRange s))) ->
  TokenStage.getDelimiterRanges s = TokenStage.getDelimiterRanges s'.
Proof.
  intros Hc Hs He. unfold TokenStage.getDelimiterRanges, lineAt.
  unfold lineText in Hs, He. rewrite <- Hc, <- Hs, <- He. reflexivity.
Qed.

Lemma token_scan_reads_two_lines_witness :
  TokenStage.getDelimiterRanges exBar
  = TokenStage.getDelimiterRanges
      (mkTypedSelection
         (mkTextEditor 2 (mkTextDocument [Js.lit "foo bar baz"; Js.lit "x"]))
         None None None (contentRange exBar) None None None None).
Proof.
  apply (token_scan_reads_two_lines exBar
           (mkTypedSelection
              (mkTextEditor 2
                 (mkTextDocument [Js.lit "foo bar baz"; Js.lit "x"]))
              None None None (contentRange exBar) None None None None));
    reflexivity.
Defined.

(** X5: a content range that starts at column 0 and ends at or after the end
    of its line gets no delimiter range, whatever the text: a token alone on
    its line, or a run of whole lines, is not in a delimited list. *)
Theorem token_whole_lines_not_delimited {H S D : Type}
  (context : ProcessedTargetsContext H S) (stage : D) (s : TypedSelection)
  (st et : Js.JsString) :
  linesOf s st et ->
  character (start (contentRange s)) = 0 ->
  length et <= character (end_ (contentRange s)) ->
  exists out,
    TokenStage.run context stage s = Ok out
    /\ leadingDelimiterRange out = None
    /\ trailingDelimiterRange out = None.
Proof.
  intros Hl H0 He. rewrite (run_eq context stage Hl). cbv zeta.
  eexists. split; [reflexivity|].
  cbn [leadingDelimiterRange trailingDelimiterRange].
  assert (Hq : qualifies st et (start (contentRange s))
                 (end_ (contentRange s)) = false).
  { unfold qualifies, precededByWhiteSpace, followedByWhiteSpace.
    rewrite H0, skipn_all2 by exact He. reflexivity. }
  rewrite Hq. split; reflexivity.
Qed.

Lemma token_whole_lines_not_delimited_witness :
  exists out,
    TokenStage.run exContext tt (exSelection 4 0 5 3) = Ok out
    /\ leadingDelimiterRange out = None
    /\ trailingDelimiterRange out = None.
Proof.
  apply (token_whole_lines_not_delimited exContext tt
           (s := exSelection 4 0 5 3) (conj eq_refl eq_refl));
    [reflexivity|simpl; lia].
Defined.

(** X6: a delimiter range of the output is never empty: its start is
    strictly before its end, also when the content range is not a range of
    the document. *)
Theorem token_delimiter_ranges_not_empty {H S D : Type}
  (context : ProcessedTargetsContext H S) (stage : D)
  (s out : TypedSelection) (r : Range) :
  TokenStage.run context stage s = Ok out ->
  leadingDelimiterRange out = Some r \/ trailingDelimiterRange out = Some r ->
  isBefore (start r) (end_ r) = true /\ isEmpty r = false.
Proof.
  intros Hr Hd. destruct (run_Ok_lines _ _ _ Hr) as (st & et & Hl).
  rewrite (run_eq context stage Hl) in Hr. injection Hr as <-.
  cbv zeta in Hd. cbn [leadingDelimiterRange trailingDelimiterRange] in Hd.
  destruct (qualifies st et _ _); [|destruct Hd as [Hd|Hd]; discriminate Hd].
  assert (Hcols : line (start r) = line (end_ r)
                  /\ character (start r) < character (end_ r)).
  { destruct Hd as [Hd|Hd].
    - apply leadingScan_Some in Hd.
      destruct Hd as (n & Hpos & Hcol & _ & -> & _). simpl. lia.
    - apply trailingScan_Some in Hd.
      destruct Hd as (n & Hpos & _ & -> & _). simpl. lia. }
  destruct Hcols as [Hline Hcol].
  unfold isEmpty, isEqual, isBefore. rewrite Hline, !Nat.ltb_irrefl.
  split.
  - now apply Nat.ltb_lt.
  - apply andb_false_iff. right. apply Nat.eqb_neq. lia.
Qed.

Lemma token_delimiter_ranges_not_empty_witness :
  isBefore (mkPosition 4 8) (mkPosition 4 10) = true
  /\ isEmpty (mkRange (mkPosition 4 8) (mkPosition 4 10)) = false.
Proof.
  apply (token_delimiter_ranges_not_empty exContext tt
           (exSelection 4 10 5 3) (out := exPastOut)
           (r := mkRange (mkPosition 4 8) (mkPosition 4 10)));
    [reflexivity|left; reflexivity].
Defined.

End TokenStageProperties.

Section PositionStageProperties.
Import Vscode Types Spec Examples MoreExamples.

Lemma isBeforeOrEqual_refl (p : Position) : isBeforeOrEqual p p = true.
Proof.
  unfold isBeforeOrEqual, isEqual. now rewrite !Nat.eqb_refl, orb_true_r.
Qed.

(** X7: once the Position stage has run with one of its four values, a
    second run with any of the four values changes nothing: the first
    position wins. *)
Theorem position_first_wins {H S : Type}
  (context : ProcessedTargetsContext H S)
  (first second : PositionStage.PositionModifier) (s : TypedSelection) :
  recognized (PositionStage.position first) ->
  recognized (PositionStage.position second) ->
  PositionStage.run context second (PositionStage.run context first s)
  = PositionStage.run context first s.
Proof.
  intros [Hp|Hp] [Hq|Hq].
  - rewrite (run_beforeOrStart context second _ Hq),
      (run_beforeOrStart context first _ Hp).
    unfold set_interiorRange, set_contentRange. simpl.
    now destruct (interiorRange s).
  - rewrite (run_afterOrEnd context second _ Hq),
      (run_beforeOrStart context first _ Hp).
    unfold set_interiorRange, set_contentRange. simpl.
    now destruct (interiorRange s).
  - rewrite (run_beforeOrStart context second _ Hq),
      (run_afterOrEnd context first _ Hp).
    unfold set_interiorRange, set_contentRange. simpl.
    now destruct (interiorRange s).
  - rewrite (run_afterOrEnd context second _ Hq),
      (run_afterOrEnd context first _ Hp).
    unfold set_interiorRange, set_contentRange. simpl.
    now destruct (interiorRange s).
Qed.

Lemma position_first_wins_witness :
  PositionStage.run exContext (exModifier "end")
    (PositionStage.run exContext (exModifier "before") exWide)
  = PositionStage.run exContext (exModifier "before") exWide.
Proof.
  apply (position_first_wins exContext (exModifier "before")
           (exModifier "end") exWide).
  - left. left. reflexivity.
  - right. right. reflexivity.
Defined.

(** X8: the Position stage narrows: when the content range of the input is
    in order (its start is not after its end), the content range of the
    output, for each of the four values, lies within it. *)
Theorem position_narrows {H S : Type}
  (context : ProcessedTargetsContext H S)
  (stage : PositionStage.PositionModifier) (s : TypedSelection) :
  recognized (PositionStage.position stage) ->
  isBeforeOrEqual (start (contentRange s)) (end_ (contentRange s)) = true ->
  let out := PositionStage.run context stage s in
  contains (contentRange s) (start (contentRange out)) = true
  /\ contains (contentRange s) (end_ (contentRange out)) = true.
Proof.
  intros [Hp|Hp] Ho; cbv zeta;
    [rewrite (run_beforeOrStart context stage s Hp)
    |rewrite (run_afterOrEnd context stage s Hp)];
    unfold contains; simpl; now rewrite Ho, isBeforeOrEqual_refl.
Qed.

Lemma position_narrows_witness :
  contains (contentRange exWide)
    (start (contentRange
              (PositionStage.run exContext (exModifier "after") exWide)))
  = true
  /\ contains (contentRange exWide)
       (end_ (contentRange
                (PositionStage.run exContext (exModifier "after") exWide)))
     = true.
Proof.
  apply (position_narrows exContext (exModifier "after") exWide).
  - right. left. reflexivity.
  - reflexivity.
Defined.

(** X9: the Position stage and the delimiter ranges next to the content
    range. For before and start, a leading delimiter range that ended at
    the start of the content range still ends at the start of the new
    content range, while a trailing delimiter range that started at the end
    of the content range starts at the end of the new one only if the
    content range was empty; for after and end the two sides change
    roles. *)
Theorem position_delimiter_adjacency {H S : Type}
  (context : ProcessedTargetsContext H S)
  (stage : PositionStage.PositionModifier) (s : TypedSelection)
  (l t : Range) :
  leadingDelimiterRange s = Some l -> end_ l = start (contentRange s) ->
  trailingDelimiterRange s = Some t -> start t = end_ (contentRange s) ->
  let out := PositionStage.run context stage s in
  let wasEmpty := start (contentRange s) = end_ (contentRange s) in
  (beforeOrStart (PositionStage.position stage) ->
   end_ l = start (contentRange out)
   /\ (start t = end_ (contentRange out) <-> wasEmpty))
  /\ (afterOrEnd (PositionStage.position stage) ->
      start t = end_ (contentRange out)
      /\ (end_ l = start (contentRange out) <-> wasEmpty)).
Proof.
  intros _ Hl _ Ht. cbv zeta. split; intro Hp.
  - rewrite (run_beforeOrStart context stage s Hp). simpl.
    split; [exact Hl|]. rewrite Ht. split; congruence.
  - rewrite (run_afterOrEnd context stage s Hp). simpl.
    split; [exact Ht|]. rewrite Hl. split; congruence.
Qed.

Lemma position_delimiter_adjacency_witness :
  mkPosition 0 4
  = start (contentRange
             (PositionStage.run exContext (exModifier "before") exBarOut))
  /\ (mkPosition 0 7
      = end_ (contentRange
                (PositionStage.run exContext (exModifier "before") exBarOut))
      <-> mkPosition 0 4 = mkPosition 0 7).
Proof.
  destruct (position_delimiter_adjacency exContext (exModifier "before")
              exBarOut
              (l := mkRange (mkPosition 0 3) (mkPosition 0 4))
              (t := mkRange (mkPosition 0 7) (mkPosition 0 8))
              eq_refl eq_refl eq_refl eq_refl)
    as [Hb _].
  apply Hb. left. reflexivity.
Defined.

End PositionStageProperties.

(** * The sidecar functions *)

Section SidecarProperties.
Import Js Sidecar.

(** [cls+$] matches from the current index exactly when the rest of the
    input is not empty and all in the class. *)
Lemma matchHere_plus_end (cls : CodeUnit -> bool) (b : bool) (s : JsString) :
  matchHere [ClassPlus cls; AssertEnd] b s =
  match s with
  | [] => None
  | _ :: _ => if forallb cls s then Some (length s) else None
  end.
Proof.
  induction s as [|c s IH]; [reflexivity|].
  simpl in *. destruct (cls c); [|reflexivity].
  simpl. rewrite IH. destruct s as [|d s]; [reflexivity|].
  destruct (forallb cls (d :: s)); reflexivity.
Qed.

(** A pattern that starts with [^] matches at index 0 or nowhere. *)
Lemma execFrom_anchored_later (p : Pattern) (i : nat) (s : JsString) :
  execFrom (AssertStart :: p) (S i) s = None.
Proof.
  revert i. induction s as [|c s IH]; intro i; [reflexivity|].
  cbn [execFrom]. simpl. apply IH.
Qed.

(** [/^[\w-]+$/] matches exactly the non-empty strings made of letters,
    digits, underscores and dashes. *)
Lemma match_prefix_notNull (s : JsString) :
  notNull (match_ s re_prefix) = truthy s && forallb isWordOrDash s.
Proof.
  unfold match_, re_prefix. destruct s as [|c s]; [reflexivity|].
  cbn [execFrom]. change (0 =? 0) with true.
  change (matchHere (AssertStart :: ?p) true ?r) with (matchHere p true r).
  rewrite matchHere_plus_end.
  destruct (forallb isWordOrDash (c :: s)); [reflexivity|].
  now rewrite execFrom_anchored_later.
Qed.

Lemma prefix_check (p : JsString) :
  truthy p && negb (notNull (match_ p re_prefix))
  = negb (forallb isWordOrDash p).
Proof.
  rewrite match_prefix_notNull. destruct p as [|c p]; [reflexivity|].
  simpl. now destruct (isWordOrDash c && forallb isWordOrDash p).
Qed.

(** The run of [sidecarSetup] on a prefix that passes the check. *)
Lemma sidecarSetup_valid (host : Host) (root p : JsString) :
  forallb isWordOrDash p = true ->
  sidecarSetup host root p
  = (created <-
       tryCatch
         (found <- ([ExistsSync root], Returned (existsSync host root)) ;;
          if negb found
          then call (MkdirSync root) (mkdirSync host root)
          else ret tt)
         (fun e =>
            call (ShowErrorMessage
                    (lit "Error creating " ++ root
                     ++ lit " (nonfatal): " ++ errorString e))
              None) ;;
     watching <-
       call (RegisterFileWatchers root) (registerFileWatchers host root) ;;
     serving <-
       call (StartCommandServer root) (startCommandServer host root) ;;
     call (ShowInformationMessage
             (lit "Cursorless has successfully started in sidecar mode!"
              ++ (if truthy p
                  then lit " (prefix: " ++ p ++ lit "/)"
                  else lit "")))
       None)%run.
Proof.
  intro Hv. unfold sidecarSetup. rewrite prefix_check, Hv. simpl.
  match goal with |- (let (t', o) := ?m in (t', o)) = _ => now destruct m end.
Qed.

Lemma sidecarSetup_invalid (host : Host) (root p : JsString) :
  forallb isWordOrDash p = false ->
  sidecarSetup host root p
  = ([], Threw (mkJsError
                  (lit "Sidecar prefix cannot contain special characters: ("
                   ++ p ++ lit ")"))).
Proof.
  intro Hv. unfold sidecarSetup. now rewrite prefix_check, Hv.
Qed.

(** Case analysis on the prefix check and on the answers of the host. *)
Ltac sidecar_cases host root p :=
  destruct (forallb isWordOrDash p) eqn:Hvalid;
  [rewrite (sidecarSetup_valid host root p Hvalid);
   destruct (existsSync host root) eqn:Hexists;
   destruct (mkdirSync host root) as [mkdirError|] eqn:Hmkdir;
   destruct (registerFileWatchers host root) as [watchError|] eqn:Hwatch;
   destruct (startCommandServer host root) as [serveError|] eqn:Hserve;
   simpl
  |rewrite (sidecarSetup_invalid host root p Hvalid); simpl].

(** After an accepted prefix the first call asks whether the root
    directory exists. *)
Lemma sidecarSetup_valid_first_call (host : Host) (root p : JsString) :
  forallb isWordOrDash p = true ->
  exists calls outcome,
    sidecarSetup host root p = (ExistsSync root :: calls, outcome).
Proof.
  intro Hv. sidecar_cases host root p; try discriminate Hv; eauto.
Qed.

(** X10: [sidecarSetup] refuses a prefix exactly when it holds a code unit
    other than a letter, a digit, an underscore or a dash (the empty prefix
    is accepted); it then throws before any call is made, and otherwise its
    first call asks whether the root directory exists. *)
Theorem sidecarSetup_prefix_check (host : Host) (root p : JsString) :
  (forallb isWordOrDash p = false ->
   sidecarSetup host root p
   = ([], Threw (mkJsError
                   (lit "Sidecar prefix cannot contain special characters: ("
                    ++ p ++ lit ")"))))
  /\ (forallb isWordOrDash p = true ->
      exists calls outcome,
        sidecarSetup host root p = (ExistsSync root :: calls, outcome)).
Proof.
  split; intro Hv.
  - now apply sidecarSetup_invalid.
  - now apply sidecarSetup_valid_first_call.
Qed.

Lemma sidecarSetup_prefix_check_witness :
  fst (sidecarSetup exHost (lit "/r") (lit "a b")) = []
  /\ exists calls outcome,
       sidecarSetup exHost (lit "/r") (lit "a-b_9")
       = (ExistsSync (lit "/r") :: calls, outcome).
Proof.
  destruct (sidecarSetup_prefix_check exHost (lit "/r") (lit "a b"))
    as [Hbad _].
  destruct (sidecarSetup_prefix_check exHost (lit "/r") (lit "a-b_9"))
    as [_ Hgood].
  split; [now rewrite (Hbad eq_refl)|exact (Hgood eq_refl)].
Defined.

(** X11: with an accepted prefix, [sidecarSetup] returns exactly when
    registering the file watchers and starting the command server both
    return; whether the root directory exists and whether creating it
    fails plays no part. *)
Theorem sidecarSetup_returns_iff (host : Host) (root p : JsString) :
  forallb isWordOrDash p = true ->
  (snd (sidecarSetup host root p) = Returned tt
   <-> registerFileWatchers host root = None
       /\ startCommandServer host root = None).
Proof.
  intro Hv.
  sidecar_cases host root p; try discriminate Hv;
    split; intro Hx; try (destruct Hx; discriminate); try discriminate Hx;
    auto.
Qed.

Lemma sidecarSetup_returns_iff_witness :
  snd (sidecarSetup exHost (lit "/r") (lit "debug")) = Returned tt.
Proof.
  apply (sidecarSetup_returns_iff exHost (lit "/r") (lit "debug")).
  - reflexivity.
  - split; reflexivity.
Defined.

(** X12: [sidecarSetup] creates a directory only after an accepted prefix,
    only the root directory, and only when it does not exist yet; it shows
    an error message only when that creation failed, and the message ends
    with the string form of the value that [mkdirSync] threw. *)
Theorem sidecarSetup_mkdir (host : Host) (root p d m : JsString) :
  (In (MkdirSync d) (fst (sidecarSetup host root p))
   <-> d = root /\ forallb isWordOrDash p = true
       /\ existsSync host root = false)
  /\ (In (ShowErrorMessage m) (fst (sidecarSetup host root p))
      <-> forallb isWordOrDash p = true /\ existsSync host root = false
          /\ exists e, mkdirSync host root = Some e
                       /\ m = lit "Error creating " ++ root
                              ++ lit " (nonfatal): " ++ errorString e).
Proof.
  sidecar_cases host root p; (split; split; intro Hx);
    repeat match goal with
      | Hx : _ \/ _ |- _ => destruct Hx as [Hx|Hx]
      | Hx : _ /\ _ |- _ => destruct Hx as [? Hx]
      | Hx : exists _, _ |- _ => destruct Hx as [? Hx]
      | Hx : False |- _ => contradiction
      | Hx : _ = _ |- _ => first [discriminate Hx|injection Hx as Hx]
      end;
    subst; try discriminate; try contradiction; eauto 10.
Qed.

Lemma sidecarSetup_mkdir_witness :
  In (MkdirSync (lit "/r"))
    (fst (sidecarSetup exHostInvalidPath (lit "/r") (lit "")))
  /\ In (ShowErrorMessage
           (lit "Error creating /r (nonfatal): TypeError [ERR_INVALID_ARG_VALUE]: invalid path"))
       (fst (sidecarSetup exHostInvalidPath (lit "/r") (lit ""))).
Proof.
  destruct (sidecarSetup_mkdir exHostInvalidPath (lit "/r") (lit "")
              (lit "/r")
              (lit "Error creating /r (nonfatal): TypeError [ERR_INVALID_ARG_VALUE]: invalid path"))
    as [[_ Hm] [_ He]].
  split.
  - apply Hm. repeat split; reflexivity.
  - apply He. split; [reflexivity|]. split; [reflexivity|].
    exists (thrownValue
              (lit "TypeError [ERR_INVALID_ARG_VALUE]: invalid path")).
    split; reflexivity.
Defined.

(** X13: the command server is started only after an accepted prefix and
    after the file watchers were registered without an exception, and only
    on the root directory; the message of success is shown only when the
    command server started without an exception too. *)
Theorem sidecarSetup_start_order (host : Host) (root p d m : JsString) :
  (In (StartCommandServer d) (fst (sidecarSetup host root p))
   <-> d = root /\ forallb isWordOrDash p = true
       /\ registerFileWatchers host root = None)
  /\ (In (ShowInformationMessage m) (fst (sidecarSetup host root p))
      <-> forallb isWordOrDash p = true
          /\ registerFileWatchers host root = None
          /\ startCommandServer host root = None
          /\ m = lit "Cursorless has successfully started in sidecar mode!"
                 ++ (if truthy p
                     then lit " (prefix: " ++ p ++ lit "/)"
                     else lit "")).
Proof.
  sidecar_cases host root p; (split; split; intro Hx);
    repeat match goal with
      | Hx : _ \/ _ |- _ => destruct Hx as [Hx|Hx]
      | Hx : _ /\ _ |- _ => destruct Hx as [? Hx]
      | Hx : False |- _ => contradiction
      | Hx : _ = _ |- _ => first [discriminate Hx|injection Hx as Hx]
      end;
    subst; try discriminate; try contradiction; auto 10.
Qed.

Lemma sidecarSetup_start_order_witness :
  In (StartCommandServer (lit "/r"))
    (fst (sidecarSetup exHost (lit "/r") (lit "debug")))
  /\ In (ShowInformationMessage
           (lit "Cursorless has successfully started in sidecar mode! (prefix: debug/)"))
       (fst (sidecarSetup exHost (lit "/r") (lit "debug"))).
Proof.
  destruct (sidecarSetup_start_order exHost (lit "/r") (lit "debug")
              (lit "/r")
              (lit "Cursorless has successfully started in sidecar mode! (prefix: debug/)"))
    as [[_ Hs] [_ Hm]].
  split.
  - apply Hs. repeat split; reflexivity.
  - apply Hm. repeat split; reflexivity.
Defined.

(** X14: [sidecarPrefix] gives the empty prefix exactly when the
    environment variable is not set or empty and the extension does not run
    in development mode; a non-empty value of the variable is returned as it
    is, in every mode. *)
Theorem sidecarPrefix_cases (env : option JsString) (mode : ExtensionMode) :
  (sidecarPrefix env mode = []
   <-> (env = None \/ env = Some []) /\ mode <> Development)
  /\ (forall e, env = Some e -> e <> [] -> sidecarPrefix env mode = e).
Proof.
  split.
  - destruct env as [[|c e]|], mode; simpl; split; intro Hx;
      try discriminate Hx; try reflexivity;
      try (split; [auto|discriminate]);
      destruct Hx as [[Hx|Hx] Hm]; try discriminate Hx; now try contradiction Hm.
  - intros e -> He. destruct e as [|c e]; [now contradiction He|reflexivity].
Qed.

Lemma sidecarPrefix_cases_witness :
  sidecarPrefix (Some (lit "")) Production = []
  /\ sidecarPrefix (Some (lit "x")) Development = lit "x".
Proof.
  destruct (sidecarPrefix_cases (Some (lit "")) Production) as [[_ He] _].
  destruct (sidecarPrefix_cases (Some (lit "x")) Development) as [_ Hx].
  split.
  - apply He. split; [right; reflexivity|discriminate].
  - apply (Hx (lit "x")); [reflexivity|discriminate].
Defined.

(** X15: [sidecarSetup] on the prefix that [sidecarPrefix] picks throws at
    its check exactly when the environment variable holds a value with a
    code unit other than a letter, a digit, an underscore or a dash: the
    prefixes picked by the mode are always accepted. *)
Theorem sidecarSetup_of_sidecarPrefix (host : Host) (root : JsString)
  (env : option JsString) (mode : ExtensionMode) :
  (exists err,
      sidecarSetup host root (sidecarPrefix env mode) = ([], Threw err))
  <-> (exists e, env = Some e /\ forallb isWordOrDash e = false).
Proof.
  split.
  - intros [err Hr].
    destruct (forallb isWordOrDash (sidecarPrefix env mode)) eqn:Hv.
    + destruct (sidecarSetup_valid_first_call host root _ Hv)
        as (calls & outcome & Hg).
      rewrite Hg in Hr. discriminate Hr.
    + destruct env as [[|c e]|]; [now destruct mode|now exists (c :: e)|
                                  now destruct mode].
  - intros (e & -> & Hv). eexists.
    destruct e as [|c e]; [discriminate Hv|].
    apply (sidecarSetup_invalid host root (c :: e) Hv).
Qed.

Lemma sidecarSetup_of_sidecarPrefix_witness :
  exists err,
    sidecarSetup exHost (lit "/r") (sidecarPrefix (Some (lit "a/b")) Test)
    = ([], Threw err).
Proof.
  apply (sidecarSetup_of_sidecarPrefix exHost (lit "/r")
           (Some (lit "a/b")) Test).
  exists (lit "a/b"). split; reflexivity.
Defined.

End SidecarProperties.
